(** * pom-analyzer: the Maven descriptor report, embedded and verified

    The program (py.py) walks a directory for pom.xml files, reads the
    project identity, the artifactItem and dependency lists and the local
    application.properties of each, and renders one HTML table.

    The embedding follows the source function by function.  Python values
    are modelled in [Py], the part of xml.etree.ElementTree the program uses
    in [ET], the part of os and os.path it uses in [OS]; the five functions of
    the program follow under their own names. *)

From Stdlib Require Import String Ascii List Bool Arith Lia.
From Stdlib Require Import Sorted Permutation DecimalString.
Import ListNotations.
Local Open Scope list_scope.
Local Open Scope string_scope.

(* ------------------------------------------------------------------------- *)
(** * Python values: exceptions, str, list and dict operations               *)
(* ------------------------------------------------------------------------- *)

Module Py.

(** The exception classes that the modelled calls raise.  [OSError]
    stands for its subclasses FileNotFoundError, NotADirectoryError and
    IsADirectoryError.  [LookupError] and [ValueError] are what ET.parse
    raises on a declared encoding that it does not know or cannot use;
    [UnicodeDecodeError], a subclass of ValueError, is what reading a text
    file raises on bytes that are not text. *)
Inductive exn : Type :=
| ParseError
| AttributeError
| TypeError
| ValueError
| OSError
| LookupError
| UnicodeDecodeError.

Definition exn_eqb (a b : exn) : bool :=
  match a, b with
  | ParseError, ParseError
  | AttributeError, AttributeError
  | TypeError, TypeError
  | ValueError, ValueError
  | OSError, OSError
  | LookupError, LookupError
  | UnicodeDecodeError, UnicodeDecodeError => true
  | _, _ => false
  end.

(** [isinstance(e, cls)]: the class itself, or ValueError for its subclass
    UnicodeDecodeError. *)
Definition exn_isinstance (e cls : exn) : bool :=
  exn_eqb e cls || (exn_eqb e UnicodeDecodeError && exn_eqb cls ValueError).

(** A computation either returns a value or raises. *)
Inductive result (A : Type) : Type :=
| Ok (a : A)
| Raise (e : exn).

Arguments Ok {A} a.
Arguments Raise {A} e.

Definition bind {A B : Type} (m : result A) (k : A -> result B) : result B :=
  match m with
  | Ok a => k a
  | Raise e => Raise e
  end.

(** [try: m except (classes): h] *)
Definition try_except {A : Type} (m : result A) (classes : list exn)
  (h : result A) : result A :=
  match m with
  | Ok a => Ok a
  | Raise e => if existsb (exn_isinstance e) classes then h else Raise e
  end.

(** [for x in xs: s = body(s, x)] with the loop state threaded through. *)
Fixpoint for_each {S X : Type} (xs : list X) (s : S)
  (body : S -> X -> result S) : result S :=
  match xs with
  | [] => Ok s
  | x :: xs' => bind (body s x) (fun s' => for_each xs' s' body)
  end.

(** The same loop seen as a traversal that collects one value per item. *)
Fixpoint mapM {X Y : Type} (f : X -> result Y) (xs : list X) : result (list Y) :=
  match xs with
  | [] => Ok []
  | x :: xs' => bind (f x) (fun y => bind (mapM f xs') (fun ys => Ok (y :: ys)))
  end.

(** ** str *)

(** A str is a sequence of code points; the model keeps the code points
    below 256.  [isspace] is str.isspace on one such character. *)
Definition isspace (c : ascii) : bool :=
  let n := nat_of_ascii c in
  (((9 <=? n) && (n <=? 13)) || ((28 <=? n) && (n <=? 32))
   || (n =? 133) || (n =? 160))%nat.

Fixpoint lstrip (s : string) : string :=
  match s with
  | EmptyString => EmptyString
  | String c s' => if isspace c then lstrip s' else s
  end.

Fixpoint rstrip (s : string) : string :=
  match s with
  | EmptyString => EmptyString
  | String c s' =>
      match rstrip s' with
      | EmptyString => if isspace c then EmptyString else String c EmptyString
      | r => String c r
      end
  end.

(** [s.strip()] *)
Definition strip (s : string) : string := rstrip (lstrip s).

(** [s.startswith(p)] *)
Definition startswith (s p : string) : bool := String.prefix p s.

(** [sub in s], for a str [s]. *)
Fixpoint contains (sub s : string) : bool :=
  String.prefix sub s ||
  match s with
  | EmptyString => false
  | String _ s' => contains sub s'
  end.

(** The first occurrence of [sep] cuts [s] in two. *)
Fixpoint cut (sep : ascii) (s : string) : option (string * string) :=
  match s with
  | EmptyString => None
  | String c s' =>
      if Ascii.eqb c sep then Some (EmptyString, s')
      else match cut sep s' with
           | Some (k, v) => Some (String c k, v)
           | None => None
           end
  end.

(** [s.split(sep, 1)] for a separator of one character. *)
Definition split1 (sep : ascii) (s : string) : list string :=
  match cut sep s with
  | Some (k, v) => [k; v]
  | None => [s]
  end.

(** [a, b = xs]: unpacking into two targets raises ValueError unless
    the list has exactly two items. *)
Definition unpack2 {A : Type} (xs : list A) : result (A * A) :=
  match xs with
  | [a; b] => Ok (a, b)
  | _ => Raise ValueError
  end.

(** [s[2:-1]] *)
Definition slice_2_m1 (s : string) : string :=
  String.substring 2 (String.length s - 3) s.

(** [str(n)] for a non-negative int. *)
Definition str_of_nat (n : nat) : string :=
  NilEmpty.string_of_uint (Nat.to_uint n).

(** How an f-string renders a value that is a str or None. *)
Definition fmt (t : option string) : string :=
  match t with
  | Some s => s
  | None => "None"
  end.

(** Truth value of a str-or-None. *)
Definition truthy (t : option string) : bool :=
  match t with
  | Some EmptyString => false
  | Some _ => true
  | None => false
  end.

(** ** sorted, on a list of str

    str compares by code points, lexicographically ([String.leb]).  The
    order is total and antisymmetric, so every sorting algorithm returns the
    same list; the model inserts one by one. *)
Fixpoint insert_sorted (x : string) (l : list string) : list string :=
  match l with
  | [] => [x]
  | y :: l' => if String.leb x y then x :: l else y :: insert_sorted x l'
  end.

Fixpoint sorted (l : list string) : list string :=
  match l with
  | [] => []
  | x :: l' => insert_sorted x (sorted l')
  end.

(** ** dict with str keys and values

    A dict keeps its keys in the order of their first insertion; assigning
    to a key that is present replaces the value where it stands. *)
Definition dict : Type := list (string * string).

Fixpoint dict_set (d : dict) (k v : string) : dict :=
  match d with
  | [] => [(k, v)]
  | (k', v') :: d' =>
      if String.eqb k' k then (k, v) :: d' else (k', v') :: dict_set d' k v
  end.

Fixpoint dict_get (d : dict) (k : string) : option string :=
  match d with
  | [] => None
  | (k', v') :: d' => if String.eqb k' k then Some v' else dict_get d' k
  end.

End Py.

Import Py.

Notation "x <- m ;; k" := (bind m (fun x => k))
  (at level 61, m at next level, right associativity).
Notation "' pat <- m ;; k" := (bind m (fun x => match x with pat => k end))
  (at level 61, pat pattern, m at next level, right associativity).

(* ------------------------------------------------------------------------- *)
(** * xml.etree.ElementTree: elements and the two path forms the program uses *)
(* ------------------------------------------------------------------------- *)

Module ET.

(** An element: its tag (with the namespace in braces, as ElementTree keeps
    it), its text (None when the element has no character data before its
    first child) and its children in document order. *)
#[warnings="-register-all"] Inductive Element : Type :=
| mkElement (tag : string) (text : option string) (children : list Element).

Definition tag (e : Element) : string :=
  match e with mkElement t _ _ => t end.

Definition text (e : Element) : option string :=
  match e with mkElement _ t _ => t end.

Definition children (e : Element) : list Element :=
  match e with mkElement _ _ cs => cs end.

(** The namespaces argument of every lookup: {'ns': POM_NS}. *)
Definition POM_NS : string := "http://maven.apache.org/POM/4.0.0".

(** The tag that the path step [ns:name] stands for. *)
Definition qname (name : string) : string := "{" ++ POM_NS ++ "}" ++ name.

Definition has_tag (name : string) (e : Element) : bool :=
  String.eqb (tag e) (qname name).

(** A name that is one step of the path language: none of the characters
    that the path tokenizer treats as syntax, and not the wildcard.  Every
    XML element name is one.  For such a name, [ns:name] selects the children
    whose tag is [qname name]; the fixed paths of the program are of this
    form. *)
Definition path_syntax (c : ascii) : bool :=
  isspace c || existsb (Ascii.eqb c) (list_ascii_of_string "/[]()@!=").

Definition name_step (name : string) : bool :=
  negb (String.eqb name "*")
  && forallb (fun c => negb (path_syntax c)) (list_ascii_of_string name).

(** A name that is one token of the path language: the wildcard, or a
    name that is a step. *)
Definition one_token (name : string) : bool :=
  forallb (fun c => negb (path_syntax c)) (list_ascii_of_string name).

(** [e.find('ns:' + name, namespaces)]: the first child with that tag, or
    None. *)
Definition find (e : Element) (name : string) : option Element :=
  List.find (has_tag name) (children e).

(** An element of the namespace of POM_NS. *)
Definition in_namespace (e : Element) : bool :=
  String.prefix ("{" ++ POM_NS ++ "}") (tag e).

(** [e.find(f'ns:{name}', namespaces)], for a name cut out of the document.
    For a name that is one token of the path language (none of the
    characters of [path_syntax]), the path is one step: the wildcard [*]
    selects the first child of the namespace, every other such name the first
    child with the tag [qname name] (a longer name that ends in a closing
    brace and [*] asks for a namespace whose URI holds a brace, which the
    parser refuses in a document: it selects nothing there, as the comparison
    of tags does).  A name with path syntax in it makes the
    path language take further steps or predicates, or raise; the model does
    not follow it there and compares tags. *)
Definition find_name (e : Element) (name : string) : option Element :=
  if String.eqb name "*" then List.find in_namespace (children e)
  else find e name.

(** [e.iter()]: the element and its descendants, in document order. *)
Fixpoint iter (e : Element) : list Element :=
  match e with
  | mkElement _ _ cs => e :: flat_map iter cs
  end.

(** [e.findall('.//ns:' + name, namespaces)]: the descendants of [e] with
    that tag ([e] itself is left out), in document order. *)
Definition findall (e : Element) (name : string) : list Element :=
  filter (has_tag name) (flat_map iter (children e)).

(** [x.text] where [x] is the result of a find: None has no attribute. *)
Definition text_of (x : option Element) : result (option string) :=
  match x with
  | Some e => Ok (text e)
  | None => Raise AttributeError
  end.

End ET.

(* ------------------------------------------------------------------------- *)
(** * os and os.path over a directory tree                                    *)
(* ------------------------------------------------------------------------- *)

Module OS.

(** What the program can read from a regular file that holds text: what
    ET.parse makes of its bytes (the root; ParseError when they are not
    well-formed XML; LookupError or ValueError when they declare an encoding
    that the parser does not know or cannot use), and the lines that iterating
    over the open text file yields. *)
Record file : Type := mkFile {
  file_xml : result ET.Element;
  file_lines : list string
}.

(** A file system: regular files and directories; a directory lists its
    entries in the order in which the system enumerates them.  [Binary] is a
    regular file whose bytes are not text in the encoding of the locale:
    ET.parse, which reads bytes, makes of it what [xml] says, and reading it
    as text raises UnicodeDecodeError. *)
#[warnings="-register-all"] Inductive node : Type :=
| File (f : file)
| Dir (entries : list (string * node))
| Binary (xml : result ET.Element).

(** A path is kept as its components; [path_str] is the str the program
    handles. *)
Definition path : Type := list string.

Definition path_str (p : path) : string := String.concat "/" p.

(** [os.path.join(p, name)], [os.path.dirname(p)] *)
Definition join (p : path) (name : string) : path := (p ++ [name])%list.

Definition dirname (p : path) : path := removelast p.

Definition is_dir (n : node) : bool :=
  match n with
  | Dir _ => true
  | File _ | Binary _ => false
  end.

Fixpoint entry (name : string) (es : list (string * node)) : option node :=
  match es with
  | [] => None
  | (name', n) :: es' => if String.eqb name' name then Some n else entry name es'
  end.

(** What a path names, from the top of the tree. *)
Fixpoint lookup (fs : node) (p : path) : option node :=
  match p with
  | [] => Some fs
  | name :: p' =>
      match fs with
      | File _ | Binary _ => None
      | Dir es =>
          match entry name es with
          | Some sub => lookup sub p'
          | None => None
          end
      end
  end.

(** What the functions of os and open find at a path: the empty str names
    nothing (it is not the current directory), every other path what [lookup]
    gives. *)
Definition named (fs : node) (p : path) : option node :=
  match p with
  | [] => None
  | _ => lookup fs p
  end.

(** [os.path.exists(p)]: true for a regular file and for a directory. *)
Definition exists_ (fs : node) (p : path) : bool :=
  match named fs p with
  | Some _ => true
  | None => false
  end.

(** [os.scandir(p)]: the entries of a directory; raises when [p] is
    missing or is not a directory. *)
Definition scandir (fs : node) (p : path) : result (list (string * node)) :=
  match named fs p with
  | Some (Dir es) => Ok es
  | _ => Raise OSError
  end.

Definition dirnames (es : list (string * node)) : list string :=
  map fst (filter (fun e => is_dir (snd e)) es).

Definition filenames (es : list (string * node)) : list string :=
  map fst (filter (fun e => negb (is_dir (snd e))) es).

(** The triples (root, dirs, files) that os.walk yields below [top], top
    down: a directory first, then the walk of each of its subdirectories. *)
Fixpoint walk_node (top : path) (n : node)
  : list (path * list string * list string) :=
  match n with
  | File _ | Binary _ => []
  | Dir es =>
      (top, dirnames es, filenames es)
      :: flat_map (fun '(name, sub) => walk_node (join top name) sub) es
  end.

(** [os.walk(top)]: yields nothing when [top] cannot be listed (the error
    of the scan is swallowed). *)
Definition walk (fs : node) (top : path)
  : list (path * list string * list string) :=
  match named fs top with
  | Some n => walk_node top n
  | None => []
  end.

(** [resolves n rel n']: from [n], the names of [rel], each an entry of
    the directory reached so far, lead to [n']. *)
Inductive resolves : node -> path -> node -> Prop :=
| resolves_here n : resolves n [] n
| resolves_entry es name sub rel n' :
    In (name, sub) es -> resolves sub rel n' ->
    resolves (Dir es) (name :: rel) n'.

(** [open(p, 'r')] and the iteration over its lines. *)
Definition read_lines (fs : node) (p : path) : result (list string) :=
  match named fs p with
  | Some (File f) => Ok (file_lines f)
  | Some (Binary _) => Raise UnicodeDecodeError
  | _ => Raise OSError
  end.

End OS.

(** [ET.parse(p).getroot()] *)
Definition ET_parse (fs : OS.node) (p : OS.path) : result ET.Element :=
  match OS.named fs p with
  | Some (OS.File f) => OS.file_xml f
  | Some (OS.Binary xml) => xml
  | _ => Raise OSError
  end.

(* ------------------------------------------------------------------------- *)
(** * The program                                                             *)
(* ------------------------------------------------------------------------- *)

(** ** find_pom_files *)

Definition find_pom_files (fs : OS.node) (directory : OS.path)
  (include_subfolders : bool) : result (list OS.path) :=
  if include_subfolders then
    Ok (flat_map
          (fun '(root, _, files) =>
             map (OS.join root)
                 (filter (fun file => String.eqb file "pom.xml") files))
          (OS.walk fs directory))
  else
    entries <- OS.scandir fs directory ;;
    let subfolders :=
      map (fun e => OS.join directory (fst e))
          (filter (fun e => OS.is_dir (snd e)) entries) in
    Ok (filter (OS.exists_ fs)
               (map (fun subfolder => OS.join subfolder "pom.xml") subfolders)).

(** ** resolve_property *)

Definition resolve_property (pom_tree : ET.Element) (prop_name : string)
  : option string :=
  match ET.find pom_tree "properties" with
  | Some properties =>
      match ET.find_name properties prop_name with
      | Some prop_element => ET.text prop_element
      | None => None
      end
  | None => None
  end.

(** ** read_env_variables *)

(** The body of the loop over the lines of the file. *)
Definition read_env_line (env_variables : dict) (line : string) : result dict :=
  let line := strip line in
  if negb (String.eqb line "") && negb (startswith line "#") then
    try_except
      ('(key, value) <- unpack2 (split1 "="%char line) ;;
       Ok (dict_set env_variables (strip key) (strip value)))
      [ValueError]
      (Ok env_variables)
  else Ok env_variables.

Definition properties_path (project_path : OS.path) : OS.path :=
  OS.join (OS.join (OS.join (OS.join project_path "src") "main") "resources")
          "application.properties".

Definition read_env_variables (fs : OS.node) (project_path : OS.path)
  : result dict :=
  if OS.exists_ fs (properties_path project_path) then
    prop_file <- OS.read_lines fs (properties_path project_path) ;;
    for_each prop_file [] read_env_line
  else Ok [].

(** ** extract_project_info *)

(** The five values that extract_project_info returns when it has read a
    descriptor; the tuple of five None that it returns otherwise is the
    [None] of [option ProjectRecord]. *)
Record ProjectRecord : Type := mkRecord {
  project_name : string;
  api_dependencies : list string;
  dependencies : list string;
  env_variables : dict;
  pom_file_path : OS.path
}.

(** The body of the loop over the artifactItem elements: the string that
    is appended to api_dependencies. *)
Definition api_dependency (root artifactItem : ET.Element) : result string :=
  api_group_id <- ET.text_of (ET.find artifactItem "groupId") ;;
  api_artifact_id <- ET.text_of (ET.find artifactItem "artifactId") ;;
  let version_element := ET.find artifactItem "version" in
  match version_element with
  | Some version_element =>
      match ET.text version_element with
      | None =>
          (* "${" in version_text, with version_text None *)
          Raise TypeError
      | Some version_text =>
          if contains "${" version_text && contains "}" version_text then
            let prop_name := slice_2_m1 version_text in
            let resolved_version := resolve_property root prop_name in
            if truthy resolved_version then
              Ok (fmt api_group_id ++ ":" ++ fmt api_artifact_id
                  ++ " (" ++ fmt resolved_version ++ ")")
            else
              Ok (fmt api_group_id ++ ":" ++ fmt api_artifact_id
                  ++ " (" ++ version_text ++ ")")
          else
            Ok (fmt api_group_id ++ ":" ++ fmt api_artifact_id
                ++ " (" ++ version_text ++ ")")
      end
  | None => Ok (fmt api_group_id ++ ":" ++ fmt api_artifact_id)
  end.

(** The body of the loop over the dependency elements. *)
Definition dependency_name (dependency : ET.Element) : result string :=
  dep_group_id <- ET.text_of (ET.find dependency "groupId") ;;
  dep_artifact_id <- ET.text_of (ET.find dependency "artifactId") ;;
  Ok (fmt dep_group_id ++ ":" ++ fmt dep_artifact_id).

Definition extract_project_info (fs : OS.node) (pom_file : OS.path)
  : result (option ProjectRecord) :=
  try_except
    (root <- ET_parse fs pom_file ;;
     let group_id_element := ET.find root "groupId" in
     let artifact_id_element := ET.find root "artifactId" in
     match group_id_element, artifact_id_element with
     | Some group_id_element, Some artifact_id_element =>
         let group_id := ET.text group_id_element in
         let artifact_id := ET.text artifact_id_element in
         let project_name := fmt group_id ++ ":<b>" ++ fmt artifact_id ++ "</b>" in
         api_dependencies <-
           for_each (ET.findall root "artifactItem") []
             (fun acc artifactItem =>
                s <- api_dependency root artifactItem ;; Ok (acc ++ [s])%list) ;;
         dependencies <-
           for_each (ET.findall root "dependency") []
             (fun acc dependency =>
                s <- dependency_name dependency ;; Ok (acc ++ [s])%list) ;;
         let project_path := OS.dirname pom_file in
         env_variables <- read_env_variables fs project_path ;;
         Ok (Some (mkRecord project_name (sorted api_dependencies)
                     dependencies env_variables pom_file))
     | _, _ => Ok None
     end)
    [ParseError; AttributeError]
    (Ok None).

(** ** process_projects *)

(** What html_content holds when the loop over the descriptors starts. *)
Definition html_head : string :=
  "<style>"
  ++ "table { width: 100%; border-collapse: collapse; }"
  ++ "th, td { border: 1px solid black; padding: 8px; text-align: left; }"
  ++ "th { background-color: #f2f2f2; }"
  ++ ".path-column { width: 150px; word-wrap: break-word; }"
  ++ "</style>"
  ++ "<div style='overflow-x:auto;'>"
  ++ "<table>"
  ++ "<tr><th>#</th><th>Project Name</th><th style='width: 200px;'>Path to pom.xml</th><th>API Dependencies</th><th>Dependencies</th><th>ENV Variables</th></tr>".

(** [if items: html += "<ul>"; for x in items: html += li(x); html += "</ul>"] *)
Definition add_list {X : Type} (html_content : string) (items : list X)
  (li : X -> string) : string :=
  match items with
  | [] => html_content
  | _ =>
      fold_left (fun html x => html ++ li x) items (html_content ++ "<ul>")
      ++ "</ul>"
  end.

(** The body of the loop for a descriptor that gave a record. *)
Definition add_row (html_content : string) (project_counter : nat)
  (r : ProjectRecord) : string :=
  let html_content := html_content ++ "<tr>" in
  let html_content :=
    html_content ++ ("<td>" ++ str_of_nat project_counter ++ "</td>") in
  let html_content :=
    html_content ++ ("<td>" ++ project_name r ++ "</td>") in
  let html_content :=
    html_content
    ++ ("<td class='path-column'>" ++ OS.path_str (pom_file_path r) ++ "</td>") in
  let html_content := html_content ++ "<td>" in
  let html_content :=
    add_list html_content (api_dependencies r)
      (fun api_dep => "<li>" ++ api_dep ++ "</li>") in
  let html_content := html_content ++ "</td>" in
  let html_content := html_content ++ "<td>" in
  let html_content :=
    add_list html_content (dependencies r)
      (fun dep => "<li>" ++ dep ++ "</li>") in
  let html_content := html_content ++ "</td>" in
  let html_content := html_content ++ "<td>" in
  let html_content :=
    add_list html_content (env_variables r)
      (fun '(key, value) => "<li>" ++ key ++ ": " ++ value ++ "</li>") in
  let html_content := html_content ++ "</td>" in
  html_content ++ "</tr>".

(** The loop over the descriptors, on the pair (html_content,
    project_counter). *)
Definition process_file (fs : OS.node) (state : string * nat)
  (pom_file : OS.path) : result (string * nat) :=
  let '(html_content, project_counter) := state in
  r <- extract_project_info fs pom_file ;;
  match r with
  | Some r => Ok (add_row html_content project_counter r, project_counter + 1)
  | None => Ok (html_content, project_counter)
  end.

Definition process_loop (fs : OS.node) (pom_files : list OS.path)
  : result (string * nat) :=
  for_each pom_files (html_head, 1) (process_file fs).

(** process_projects, returning the text that it writes to output_file. *)
Definition process_projects (fs : OS.node) (directory : OS.path)
  (include_subfolders : bool) : result string :=
  pom_files <- find_pom_files fs directory include_subfolders ;;
  '(html_content, _) <- process_loop fs pom_files ;;
  Ok (html_content ++ "</table>" ++ "</div>").

(* ------------------------------------------------------------------------- *)
(** * The specification's reading of a properties line and of the report      *)
(* ------------------------------------------------------------------------- *)

Definition all_space (s : string) : Prop :=
  Forall (fun c => isspace c = true) (list_ascii_of_string s).

Definition no_char (sep : ascii) (s : string) : Prop :=
  ~ In sep (list_ascii_of_string s).

(** What a line of application.properties contributes, stated on the line
    as it stands in the file: nothing for a blank line, for a line whose
    first character after the leading whitespace is #, and for a line
    without =; otherwise the text before the first = and the text after it,
    both trimmed. *)
Inductive line_entry : string -> option (string * string) -> Prop :=
| line_blank line :
    all_space line -> line_entry line None
| line_comment ws rest :
    all_space ws -> line_entry (ws ++ "#" ++ rest) None
| line_no_equals line :
    no_char "="%char line -> line_entry line None
| line_assignment ws c rest key value :
    all_space ws -> isspace c = false -> c <> "#"%char ->
    ws ++ String c rest = key ++ "=" ++ value ->
    no_char "="%char key ->
    line_entry (ws ++ String c rest) (Some (strip key, strip value)).

Definition put_entry (d : dict) (e : option (string * string)) : dict :=
  match e with
  | Some (k, v) => dict_set d k v
  | None => d
  end.

(** The order of str, as a relation. *)
Definition str_le (a b : string) : Prop := String.leb a b = true.

(** The rendering of one record as a table row with index [i]. *)
Definition ul {X : Type} (items : list X) (li : X -> string) : string :=
  match items with
  | [] => ""
  | _ => "<ul>" ++ String.concat "" (map li items) ++ "</ul>"
  end.

Definition table_row (i : nat) (r : ProjectRecord) : string :=
  "<tr>"
  ++ "<td>" ++ str_of_nat i ++ "</td>"
  ++ "<td>" ++ project_name r ++ "</td>"
  ++ "<td class='path-column'>" ++ OS.path_str (pom_file_path r) ++ "</td>"
  ++ "<td>" ++ ul (api_dependencies r) (fun x => "<li>" ++ x ++ "</li>") ++ "</td>"
  ++ "<td>" ++ ul (dependencies r) (fun x => "<li>" ++ x ++ "</li>") ++ "</td>"
  ++ "<td>"
  ++ ul (env_variables r)
       (fun '(key, value) => "<li>" ++ key ++ ": " ++ value ++ "</li>")
  ++ "</td>"
  ++ "</tr>".

(** The rows of the records, numbered from [start]. *)
Definition table_rows (start : nat) (records : list ProjectRecord) : string :=
  String.concat ""
    (map (fun ir => table_row (fst ir) (snd ir))
         (combine (seq start (List.length records)) records)).

(** The records among the results of the extractions, in order. *)
Fixpoint somes {A : Type} (l : list (option A)) : list A :=
  match l with
  | [] => []
  | Some a :: l' => a :: somes l'
  | None :: l' => somes l'
  end.

(* ------------------------------------------------------------------------- *)
(** * Sample file systems                                                     *)
(* ------------------------------------------------------------------------- *)

Module Samples.

Definition el (name : string) (t : option string) (cs : list ET.Element)
  : ET.Element :=
  ET.mkElement (ET.qname name) t cs.

Definition leaf (name value : string) : ET.Element := el name (Some value) [].

Definition empty (name : string) : ET.Element := el name None [].

Definition xml_file (root : ET.Element) : OS.node :=
  OS.File (OS.mkFile (Ok root) []).

Definition text_file (lines : list string) : OS.node :=
  OS.File (OS.mkFile (Raise ParseError) lines).

Definition nl : string := String "010"%char EmptyString.

(** groupId com.acme, artifactId widget, one dependency com.acme:core. *)
Definition widget : ET.Element :=
  el "project" None
    [ leaf "groupId" "com.acme"; leaf "artifactId" "widget";
      el "dependencies" None
        [ el "dependency" None
            [ leaf "groupId" "com.acme"; leaf "artifactId" "core" ] ] ].

(** A descriptor whose groupId element has no text. *)
Definition anonymous : ET.Element :=
  el "project" None [ empty "groupId"; leaf "artifactId" "widget" ].

(** A descriptor without artifactId. *)
Definition unnamed : ET.Element :=
  el "project" None [ leaf "groupId" "com.acme" ].

(** An artifactItem. *)
Definition item (g a : string) (version : list ET.Element) : ET.Element :=
  el "artifactItem" None (leaf "groupId" g :: leaf "artifactId" a :: version).

Definition with_items (props items : list ET.Element) : ET.Element :=
  el "project" None
    [ leaf "groupId" "com.acme"; leaf "artifactId" "widget";
      el "properties" None props;
      el "build" None [ el "artifactItems" None items ] ].

(** An artifactItem with <version/>: the version element is there, its text
    is None. *)
Definition empty_version : ET.Element :=
  with_items [] [ item "com.acme" "api" [ empty "version" ] ].

(** The same, followed by a dependency that has no groupId. *)
Definition empty_version_then_bare_dependency : ET.Element :=
  el "project" None
    [ leaf "groupId" "com.acme"; leaf "artifactId" "widget";
      el "build" None [ item "com.acme" "api" [ empty "version" ] ];
      el "dependencies" None
        [ el "dependency" None [ leaf "artifactId" "core" ] ] ].

(** Two artifactItems with placeholders, then a dependency that has no
    groupId. *)
Definition placeholders_then_bare_dependency : ET.Element :=
  el "project" None
    [ leaf "groupId" "com.acme"; leaf "artifactId" "widget";
      el "properties" None [ leaf "x" "1.2.3" ];
      el "build" None
        [ item "org.a" "one" [ leaf "version" "${x}" ];
          item "org.b" "two" [ leaf "version" "${y}" ] ];
      el "dependencies" None
        [ el "dependency" None [ leaf "artifactId" "core" ] ] ].

(** A dependency that has no groupId, in a descriptor that is otherwise
    complete. *)
Definition bare_dependency : ET.Element :=
  el "project" None
    [ leaf "groupId" "com.acme"; leaf "artifactId" "widget";
      el "dependencies" None
        [ el "dependency" None [ leaf "artifactId" "core" ] ] ].

(** An artifactItem whose version is the placeholder of the wildcard, in a
    descriptor whose properties hold x only. *)
Definition wildcard_placeholder : ET.Element :=
  with_items [ leaf "x" "1.2.3" ]
    [ item "org.a" "one" [ leaf "version" "${*}" ] ].

(** Two artifactItems out of order, one with a placeholder that resolves
    and one with a placeholder that does not. *)
Definition placeholders : ET.Element :=
  with_items [ leaf "x" "1.2.3"; empty "p" ]
    [ item "org.b" "two" [ leaf "version" "${y}" ];
      item "org.a" "one" [ leaf "version" "${x}" ];
      item "org.a" "nil" [ leaf "version" "${p}" ];
      item "org.a" "bare" [] ].

(** root/A/pom.xml and root/B/nested/pom.xml, and a pom.xml in root. *)
Definition two_projects : OS.node :=
  OS.Dir
    [ ("root",
       OS.Dir
         [ ("pom.xml", xml_file widget);
           ("A", OS.Dir [ ("pom.xml", xml_file widget) ]);
           ("B", OS.Dir [ ("nested", OS.Dir [ ("pom.xml", xml_file widget) ]) ]) ]) ].

(** root/A/pom.xml is a directory. *)
Definition pom_directory : OS.node :=
  OS.Dir [ ("root", OS.Dir [ ("A", OS.Dir [ ("pom.xml", OS.Dir []) ]) ]) ].

(** One project directory under root, holding the descriptor [root_el]
    and, when [props] is given, src/main/resources/application.properties
    with those lines. *)
Definition project_fs (root_el : option ET.Element) (props : option (list string))
  : OS.node :=
  OS.Dir
    [ ("root",
       OS.Dir
         [ ("A",
            OS.Dir
              (("pom.xml",
                OS.File
                  (OS.mkFile
                     match root_el with
                     | Some root => Ok root
                     | None => Raise ParseError
                     end []))
               :: match props with
                  | Some lines =>
                      [ ("src",
                         OS.Dir
                           [ ("main",
                              OS.Dir
                                [ ("resources",
                                   OS.Dir
                                     [ ("application.properties",
                                        text_file lines) ]) ]) ]) ]
                  | None => []
                  end)) ]) ].

Definition A_pom : OS.path := ["root"; "A"; "pom.xml"].

(** Three project directories; the descriptor of the second has no
    artifactId. *)
Definition three_projects : OS.node :=
  OS.Dir
    [ ("root",
       OS.Dir
         [ ("A", OS.Dir [ ("pom.xml", xml_file widget) ]);
           ("B", OS.Dir [ ("pom.xml", xml_file unnamed) ]);
           ("C", OS.Dir [ ("pom.xml", xml_file anonymous) ]) ]) ].

End Samples.

(* ------------------------------------------------------------------------- *)
(** * The main block                                                          *)
(* ------------------------------------------------------------------------- *)

(** [c.lower()] for one character below 256: the capital letters A..Z and
    the capital letters of Latin-1 (192..222 without the multiplication
    sign, 215) move up by 32; every other character stays. *)
Definition lower_char (c : ascii) : ascii :=
  let n := nat_of_ascii c in
  if (((65 <=? n) && (n <=? 90))
      || ((192 <=? n) && (n <=? 222) && negb (n =? 215)))%nat
  then ascii_of_nat (n + 32)
  else c.

(** [s.lower()] *)
Fixpoint str_lower (s : string) : string :=
  match s with
  | EmptyString => EmptyString
  | String c s' => String (lower_char c) (str_lower s')
  end.

Definition default_directory : string := "D:\projects\adr".

(** [answer or default]: the empty str is falsy. *)
Definition or_default (answer default : string) : string :=
  if String.eqb answer "" then default else answer.

(** The three arguments that the main block passes to process_projects,
    from the three lines that input returns: (directory, output_file,
    include_subfolders). *)
Definition main_arguments (answer_directory answer_subfolders answer_output : string)
  : string * string * bool :=
  let directory := or_default answer_directory default_directory in
  let include_subfolders := String.eqb (str_lower answer_subfolders) "y" in
  let output_file := or_default answer_output "dependency_report.html" in
  (directory, output_file, include_subfolders).

(* ------------------------------------------------------------------------- *)
(** * Notions used to state properties of the extraction                      *)
(* ------------------------------------------------------------------------- *)

(** [descendant e x]: [x] is a child of [e], or a descendant of a child. *)
Inductive descendant : ET.Element -> ET.Element -> Prop :=
| descendant_child e c :
    In c (ET.children e) -> descendant e c
| descendant_deeper e c x :
    In c (ET.children e) -> descendant c x -> descendant e x.

(** An artifactItem or dependency element with both identifier children. *)
Definition complete (e : ET.Element) : Prop :=
  ET.find e "groupId" <> None /\ ET.find e "artifactId" <> None.

(** An element whose version child, if it has one, has text. *)
Definition versioned (e : ET.Element) : Prop :=
  forall ve, ET.find e "version" = Some ve -> ET.text ve <> None.

(** An artifactItem for which the lookup of a property, if the loop body
    comes to it, is one step of a path: its version text does not read as a
    placeholder, or the root has no properties child, or the name cut out of
    the text is one token of the path language. *)
Definition plain_placeholder (root item : ET.Element) : Prop :=
  forall ve t,
    ET.find item "version" = Some ve -> ET.text ve = Some t ->
    contains "${" t && contains "}" t = true ->
    ET.find root "properties" = None \/ ET.one_token (slice_2_m1 t) = true.

(** A key and a value as the environment reader stores them: both trimmed,
    the key without = and not starting with #. *)
Definition clean_entry (kv : string * string) : Prop :=
  strip (fst kv) = fst kv /\ strip (snd kv) = snd kv
  /\ no_char "="%char (fst kv) /\ startswith (fst kv) "#" = false.

(* ------------------------------------------------------------------------- *)
(** * Lemmas on str                                                           *)
(* ------------------------------------------------------------------------- *)

Section StrFacts.

Lemma str_app_assoc (a b c : string) : (a ++ b) ++ c = a ++ (b ++ c).
Proof. induction a as [|x a IH]; simpl; [reflexivity | now rewrite IH]. Qed.

Lemma str_app_nil_r (a : string) : a ++ "" = a.
Proof. induction a as [|x a IH]; simpl; [reflexivity | now rewrite IH]. Qed.

Lemma all_space_nil : all_space "".
Proof. constructor. Qed.

Lemma all_space_cons (c : ascii) (s : string) :
  all_space (String c s) <-> isspace c = true /\ all_space s.
Proof.
  unfold all_space; simpl; split.
  - intros H; inversion H; subst; auto.
  - intros [H1 H2]; constructor; auto.
Qed.

Lemma no_char_cons (sep c : ascii) (s : string) :
  no_char sep (String c s) <-> c <> sep /\ no_char sep s.
Proof. unfold no_char; simpl; tauto. Qed.

Lemma no_char_app (sep : ascii) (a b : string) :
  no_char sep (a ++ b) <-> no_char sep a /\ no_char sep b.
Proof.
  induction a as [|x a IH]; simpl.
  - unfold no_char at 2; simpl; tauto.
  - rewrite !no_char_cons, IH; tauto.
Qed.

(** *** lstrip and rstrip *)

Lemma lstrip_all_space (ws s : string) :
  all_space ws -> lstrip (ws ++ s) = lstrip s.
Proof.
  induction ws as [|c ws IH]; simpl; intros H; [reflexivity|].
  apply all_space_cons in H as [Hc Hws]; rewrite Hc; auto.
Qed.

Lemma lstrip_empty_all_space (s : string) : lstrip s = "" <-> all_space s.
Proof.
  induction s as [|c s IH]; simpl.
  - split; auto using all_space_nil.
  - rewrite all_space_cons; destruct (isspace c) eqn:Hc.
    + rewrite IH; tauto.
    + split; [discriminate | intros [H _]; discriminate].
Qed.

(** A line is its leading whitespace followed by what lstrip leaves. *)
Lemma lstrip_split (s : string) :
  exists ws, all_space ws /\ s = ws ++ lstrip s.
Proof.
  induction s as [|c s [ws [Hws Heq]]]; simpl.
  - exists ""; split; auto using all_space_nil.
  - destruct (isspace c) eqn:Hc.
    + exists (String c ws); split; [apply all_space_cons; auto|].
      simpl; now rewrite <- Heq.
    + exists ""; split; auto using all_space_nil.
Qed.

Lemma lstrip_head (s : string) (c : ascii) (r : string) :
  lstrip s = String c r -> isspace c = false.
Proof.
  induction s as [|x s IH]; simpl; [discriminate|].
  destruct (isspace x) eqn:Hx; auto.
  intros H; injection H as -> _; exact Hx.
Qed.

Lemma rstrip_cons_nonspace (c : ascii) (s : string) :
  isspace c = false -> rstrip (String c s) = String c (rstrip s).
Proof. intros Hc; simpl; rewrite Hc; now destruct (rstrip s). Qed.

Lemma rstrip_app_nonspace (a : string) (c : ascii) (s : string) :
  isspace c = false -> rstrip (a ++ String c s) = a ++ String c (rstrip s).
Proof.
  intros Hc; induction a as [|x a IH].
  - apply rstrip_cons_nonspace, Hc.
  - change (rstrip (String x (a ++ String c s)) = String x (a ++ String c (rstrip s))).
    simpl rstrip; rewrite IH.
    destruct a; reflexivity.
Qed.

Lemma rstrip_all_space (s : string) : all_space s -> rstrip s = "".
Proof.
  induction s as [|c s IH]; simpl; intros H; [reflexivity|].
  apply all_space_cons in H as [Hc Hs]; now rewrite IH, Hc.
Qed.

Lemma rstrip_idem (s : string) : rstrip (rstrip s) = rstrip s.
Proof.
  induction s as [|c s IH]; simpl; [reflexivity|].
  destruct (rstrip s) as [|x r] eqn:Hr.
  - destruct (isspace c) eqn:Hc; simpl; [reflexivity | now rewrite Hc].
  - change (rstrip (String c (String x r)) = String c (String x r)).
    simpl rstrip at 1. simpl in IH. rewrite IH. reflexivity.
Qed.

Lemma lstrip_idem (s : string) : lstrip (lstrip s) = lstrip s.
Proof.
  induction s as [|c s IH]; simpl; [reflexivity|].
  destruct (isspace c) eqn:Hc; [exact IH | simpl; now rewrite Hc].
Qed.

Lemma lstrip_rstrip (s : string) : lstrip (rstrip s) = rstrip (lstrip s).
Proof.
  induction s as [|c s IH]; [reflexivity|].
  destruct (isspace c) eqn:Hc.
  - simpl; rewrite Hc, <- IH.
    destruct (rstrip s); simpl; [reflexivity | now rewrite Hc].
  - rewrite rstrip_cons_nonspace by exact Hc. simpl lstrip; rewrite Hc.
    now rewrite rstrip_cons_nonspace.
Qed.

Lemma strip_lstrip (s : string) : strip (lstrip s) = strip s.
Proof. unfold strip; now rewrite lstrip_idem. Qed.

Lemma strip_rstrip (s : string) : strip (rstrip s) = strip s.
Proof. unfold strip; now rewrite lstrip_rstrip, rstrip_idem. Qed.

Lemma strip_all_space (s : string) : all_space s -> strip s = "".
Proof. intros H; unfold strip; apply lstrip_empty_all_space in H; now rewrite H. Qed.

(** The characters of a stripped line are characters of the line. *)
Lemma no_char_lstrip (sep : ascii) (s : string) :
  no_char sep s -> no_char sep (lstrip s).
Proof.
  induction s as [|c s IH]; simpl; auto.
  intros H; destruct (isspace c); auto.
  apply no_char_cons in H as [_ H]; auto.
Qed.

Lemma no_char_rstrip (sep : ascii) (s : string) :
  no_char sep s -> no_char sep (rstrip s).
Proof.
  induction s as [|c s IH]; simpl; auto.
  intros H; apply no_char_cons in H as [Hc H]; specialize (IH H).
  destruct (rstrip s) eqn:Hr.
  - destruct (isspace c); [exact IH | apply no_char_cons; auto].
  - apply no_char_cons; auto.
Qed.

Lemma no_char_strip (sep : ascii) (s : string) :
  no_char sep s -> no_char sep (strip s).
Proof. intros H; apply no_char_rstrip, no_char_lstrip, H. Qed.

Lemma lstrip_app_nonspace (k : string) (c : ascii) (v : string) :
  isspace c = false -> lstrip (k ++ String c v) = lstrip k ++ String c v.
Proof.
  intros Hc; induction k as [|x k IH]; simpl.
  - now rewrite Hc.
  - destruct (isspace x); [exact IH | reflexivity].
Qed.

Lemma startswith_char (c x : ascii) (s : string) :
  startswith (String c s) (String x "") = Ascii.eqb x c.
Proof.
  unfold startswith; simpl.
  destruct (ascii_dec x c) as [->|Hne].
  - rewrite Ascii.eqb_refl; now destruct s.
  - symmetry; now apply Ascii.eqb_neq.
Qed.

(** *** cut and split *)

Lemma cut_app (sep : ascii) (k v : string) :
  no_char sep k -> cut sep (k ++ String sep v) = Some (k, v).
Proof.
  induction k as [|x k IH]; simpl; intros H.
  - now rewrite Ascii.eqb_refl.
  - apply no_char_cons in H as [Hx H].
    apply Ascii.eqb_neq in Hx; rewrite Hx, IH; auto.
Qed.

Lemma cut_some (sep : ascii) (s k v : string) :
  cut sep s = Some (k, v) -> s = k ++ String sep v /\ no_char sep k.
Proof.
  revert k v; induction s as [|x s IH]; simpl; intros k v; [discriminate|].
  destruct (Ascii.eqb x sep) eqn:Hx.
  - apply Ascii.eqb_eq in Hx; subst x.
    intros H; injection H as <- <-; split; [reflexivity | unfold no_char; simpl; tauto].
  - destruct (cut sep s) as [[k' v']|]; [|discriminate].
    intros H; injection H as <- <-.
    destruct (IH k' v' eq_refl) as [-> Hk]; split; [reflexivity|].
    apply no_char_cons; split; [now apply Ascii.eqb_neq | exact Hk].
Qed.

Lemma cut_none (sep : ascii) (s : string) :
  cut sep s = None <-> no_char sep s.
Proof.
  induction s as [|x s IH]; simpl.
  - unfold no_char; simpl; tauto.
  - rewrite no_char_cons; destruct (Ascii.eqb x sep) eqn:Hx.
    + apply Ascii.eqb_eq in Hx; split; [discriminate | tauto].
    + apply Ascii.eqb_neq in Hx.
      destruct (cut sep s) as [[k v]|].
      * split; [discriminate|]. intros [_ H]; apply IH in H; discriminate.
      * split; [intros _; split; [exact Hx | now apply IH] | reflexivity].
Qed.

(** *** the placeholder test and the slice *)

Lemma prefix_app (p s : string) : String.prefix p (p ++ s) = true.
Proof.
  induction p as [|c p IH]; simpl; [now destruct s|].
  destruct (ascii_dec c c); [exact IH | congruence].
Qed.

Lemma contains_app_r (sub a b : string) :
  contains sub b = true -> contains sub (a ++ b) = true.
Proof.
  intros H; induction a as [|c a IH]; simpl; [exact H|].
  rewrite IH; apply orb_true_r.
Qed.

Lemma contains_unfold (sub s : string) :
  contains sub s =
  String.prefix sub s
  || match s with
     | EmptyString => false
     | String _ s' => contains sub s'
     end.
Proof. destruct s; reflexivity. Qed.

Lemma contains_prefix (sub s : string) : contains sub (sub ++ s) = true.
Proof. rewrite contains_unfold, prefix_app; reflexivity. Qed.

Lemma substring_app (x y : string) :
  String.substring 0 (String.length x) (x ++ y) = x.
Proof.
  induction x as [|c x IH]; simpl; [now destruct y | now rewrite IH].
Qed.

Lemma length_app (x y : string) :
  String.length (x ++ y) = String.length x + String.length y.
Proof. induction x as [|c x IH]; simpl; [reflexivity | now rewrite IH]. Qed.

Lemma placeholder_test (x : string) :
  contains "${" ("${" ++ x ++ "}") && contains "}" ("${" ++ x ++ "}") = true.
Proof.
  apply andb_true_intro; split.
  - apply contains_prefix.
  - do 2 apply contains_app_r; reflexivity.
Qed.

Lemma placeholder_slice (x : string) : slice_2_m1 ("${" ++ x ++ "}") = x.
Proof.
  unfold slice_2_m1; simpl.
  rewrite length_app; simpl.
  replace (String.length x + 1 - 1) with (String.length x) by lia.
  apply substring_app.
Qed.

End StrFacts.

(* ------------------------------------------------------------------------- *)
(** * Lemmas on sorted                                                        *)
(* ------------------------------------------------------------------------- *)

Section SortedFacts.

Lemma ascii_compare_refl (a : ascii) : Ascii.compare a a = Eq.
Proof. unfold Ascii.compare; apply BinNat.N.compare_refl. Qed.

Lemma ascii_compare_lt_trans (a b c : ascii) :
  Ascii.compare a b = Lt -> Ascii.compare b c = Lt -> Ascii.compare a c = Lt.
Proof.
  unfold Ascii.compare; rewrite !BinNat.N.compare_lt_iff.
  apply BinNat.N.lt_trans.
Qed.

Lemma str_le_trans (s1 s2 s3 : string) :
  str_le s1 s2 -> str_le s2 s3 -> str_le s1 s3.
Proof.
  unfold str_le, String.leb.
  revert s2 s3; induction s1 as [|a s1 IH]; intros [|b s2] [|c s3];
    simpl; try congruence.
  destruct (Ascii.compare a b) eqn:Hab; try discriminate;
    destruct (Ascii.compare b c) eqn:Hbc; try discriminate.
  - apply Ascii.compare_eq_iff in Hab, Hbc; subst.
    rewrite ascii_compare_refl; apply IH.
  - apply Ascii.compare_eq_iff in Hab; subst; now rewrite Hbc.
  - apply Ascii.compare_eq_iff in Hbc; subst; now rewrite Hab.
  - now rewrite (ascii_compare_lt_trans _ _ _ Hab Hbc).
Qed.

Lemma str_le_total (a b : string) : str_le a b \/ str_le b a.
Proof. apply String.leb_total. Qed.

Lemma str_le_antisym (a b : string) : str_le a b -> str_le b a -> a = b.
Proof. apply String.leb_antisym. Qed.

Lemma insert_sorted_perm (x : string) (l : list string) :
  Permutation (x :: l) (insert_sorted x l).
Proof.
  induction l as [|y l IH]; simpl; [reflexivity|].
  destruct (String.leb x y); [reflexivity|].
  rewrite perm_swap; now constructor.
Qed.

Lemma sorted_perm (l : list string) : Permutation l (sorted l).
Proof.
  induction l as [|x l IH]; simpl; [constructor|].
  rewrite <- insert_sorted_perm; now constructor.
Qed.

Lemma insert_sorted_hd (x a : string) (l : list string) :
  str_le a x -> HdRel str_le a l -> HdRel str_le a (insert_sorted x l).
Proof.
  intros Hax Hl; destruct l as [|y l]; simpl; [now constructor|].
  destruct (String.leb x y); constructor; [exact Hax | now inversion Hl].
Qed.

Lemma insert_sorted_ok (x : string) (l : list string) :
  Sorted str_le l -> Sorted str_le (insert_sorted x l).
Proof.
  induction 1 as [|y l Hs IH Hhd]; simpl; [repeat constructor|].
  destruct (String.leb x y) eqn:Hxy.
  - constructor; [now constructor | constructor; exact Hxy].
  - constructor; [exact IH|].
    apply insert_sorted_hd; [|exact Hhd].
    destruct (str_le_total x y) as [H|H]; [unfold str_le in H; congruence | exact H].
Qed.

Lemma sorted_ok (l : list string) : Sorted str_le (sorted l).
Proof.
  induction l as [|x l IH]; simpl; [constructor | now apply insert_sorted_ok].
Qed.

(** An ascending list is determined by its items. *)
Lemma ascending_unique (l1 l2 : list string) :
  Sorted str_le l1 -> Sorted str_le l2 -> Permutation l1 l2 -> l1 = l2.
Proof.
  intros H1 H2.
  apply Sorted_StronglySorted in H1; [|exact str_le_trans].
  apply Sorted_StronglySorted in H2; [|exact str_le_trans].
  revert l2 H2; induction H1 as [|a l1 Hs1 IH Ha]; intros l2 H2 Hp.
  - apply Permutation_nil in Hp; now subst.
  - destruct H2 as [|b l2 Hs2 Hb].
    + apply Permutation_sym, Permutation_nil in Hp; discriminate.
    + assert (a = b) as ->.
      { assert (Hin_a : In a (b :: l2))
          by (eapply Permutation_in; [exact Hp | now left]).
        assert (Hin_b : In b (a :: l1))
          by (eapply Permutation_in; [apply Permutation_sym; exact Hp | now left]).
        rewrite Forall_forall in Ha, Hb.
        destruct Hin_a as [->|Hin_a]; [reflexivity|].
        destruct Hin_b as [->|Hin_b]; [reflexivity|].
        apply str_le_antisym; auto. }
      f_equal; apply IH; [exact Hs2 | eapply Permutation_cons_inv; exact Hp].
Qed.

(** sorted depends on the items only, not on the order in which it gets
    them. *)
Lemma sorted_order_irrelevant (l l' : list string) :
  Permutation l l' -> sorted l = sorted l'.
Proof.
  intros Hp; apply ascending_unique; try apply sorted_ok.
  rewrite <- (sorted_perm l), <- (sorted_perm l'); exact Hp.
Qed.

End SortedFacts.

(* ------------------------------------------------------------------------- *)
(** * Lemmas on loops                                                         *)
(* ------------------------------------------------------------------------- *)

Section LoopFacts.

Context {X Y : Type}.

(** A loop that appends one value per item collects what the traversal
    collects. *)
Lemma for_each_append (f : X -> result Y) (xs : list X) (acc : list Y) :
  for_each xs acc (fun acc x => s <- f x ;; Ok (acc ++ [s])%list)
  = ys <- mapM f xs ;; Ok (acc ++ ys)%list.
Proof.
  revert acc; induction xs as [|x xs IH]; intros acc; simpl.
  - now rewrite app_nil_r.
  - destruct (f x) as [y|e]; simpl; [|reflexivity].
    rewrite IH; destruct (mapM f xs) as [ys|e]; simpl; [|reflexivity].
    now rewrite <- app_assoc.
Qed.

(** The collected values stand where their items stand. *)
Lemma mapM_ok_pointwise (f : X -> result Y) (xs : list X) (ys : list Y) :
  mapM f xs = Ok ys -> Forall2 (fun x y => f x = Ok y) xs ys.
Proof.
  revert ys; induction xs as [|x xs IH]; simpl; intros ys.
  - intros H; injection H as <-; constructor.
  - destruct (f x) as [y|e] eqn:Hx; simpl; [|discriminate].
    destruct (mapM f xs) as [ys'|e]; simpl; [|discriminate].
    intros H; injection H as <-; constructor; auto.
Qed.

(** Each item's value is among the collected ones. *)
Lemma mapM_ok_in (f : X -> result Y) (xs : list X) (ys : list Y) (x : X) (y : Y) :
  mapM f xs = Ok ys -> In x xs -> f x = Ok y -> In y ys.
Proof.
  revert ys; induction xs as [|x' xs IH]; simpl; intros ys Hm Hin Hf; [tauto|].
  destruct (f x') as [y'|e] eqn:Hx'; simpl in Hm; [|discriminate].
  destruct (mapM f xs) as [ys'|e]; simpl in Hm; [|discriminate].
  injection Hm as <-.
  destruct Hin as [->|Hin]; [left; congruence | right; eauto].
Qed.

(** The traversal raises what its first raising item raises. *)
Lemma mapM_raise (f : X -> result Y) (xs : list X) (e : exn) :
  mapM f xs = Raise e -> exists x, In x xs /\ f x = Raise e.
Proof.
  induction xs as [|x xs IH]; simpl; [discriminate|].
  destruct (f x) as [y|e'] eqn:Hx; simpl.
  - destruct (mapM f xs) as [ys|e'']; simpl; [discriminate|].
    intros H; injection H as ->.
    destruct (IH eq_refl) as [x' [Hin Hf]]; eauto.
  - intros H; injection H as ->; eauto.
Qed.

(** When every item returns or raises [e], and one raises, the traversal
    raises [e]. *)
Lemma mapM_raises (f : X -> result Y) (xs : list X) (e : exn) (x : X) :
  (forall x', In x' xs -> (exists y, f x' = Ok y) \/ f x' = Raise e) ->
  In x xs -> f x = Raise e -> mapM f xs = Raise e.
Proof.
  induction xs as [|x' xs IH]; simpl; intros Hall Hin Hf; [tauto|].
  destruct (Hall x' (or_introl eq_refl)) as [[y Hy]|Hy]; rewrite Hy; simpl;
    [|reflexivity].
  destruct Hin as [->|Hin]; [congruence|].
  rewrite IH; auto.
Qed.

End LoopFacts.

(* ------------------------------------------------------------------------- *)
(** * Lemmas on the report                                                    *)
(* ------------------------------------------------------------------------- *)

Section ReportFacts.

Lemma for_each_app {S X : Type} (xs ys : list X) (s : S)
  (body : S -> X -> result S) :
  for_each (xs ++ ys) s body = s' <- for_each xs s body ;; for_each ys s' body.
Proof.
  revert s; induction xs as [|x xs IH]; intros s; simpl; [reflexivity|].
  destruct (body s x) as [s'|e]; simpl; [apply IH | reflexivity].
Qed.

Lemma concat_empty_cons (x : string) (xs : list string) :
  String.concat "" (x :: xs) = x ++ String.concat "" xs.
Proof. destruct xs; simpl; [now rewrite str_app_nil_r | reflexivity]. Qed.

Lemma fold_append {X : Type} (li : X -> string) (items : list X) (h : string) :
  fold_left (fun html x => html ++ li x) items h
  = h ++ String.concat "" (map li items).
Proof.
  revert h; induction items as [|x items IH]; intros h.
  - simpl; now rewrite str_app_nil_r.
  - change (map li (x :: items)) with (li x :: map li items).
    rewrite concat_empty_cons; simpl fold_left.
    now rewrite IH, str_app_assoc.
Qed.

Lemma add_list_ul {X : Type} (h : string) (items : list X) (li : X -> string) :
  add_list h items li = h ++ ul items li.
Proof.
  destruct items as [|x items]; [simpl; now rewrite str_app_nil_r|].
  unfold add_list, ul; rewrite fold_append, !str_app_assoc; reflexivity.
Qed.

Lemma add_row_table_row (h : string) (i : nat) (r : ProjectRecord) :
  add_row h i r = h ++ table_row i r.
Proof.
  unfold add_row, table_row.
  rewrite !add_list_ul, !str_app_assoc.
  reflexivity.
Qed.

Lemma table_rows_cons (n : nat) (r : ProjectRecord) (rs : list ProjectRecord) :
  table_rows n (r :: rs) = table_row n r ++ table_rows (S n) rs.
Proof. unfold table_rows; simpl map; apply concat_empty_cons. Qed.

(** The loop numbers the records that the extractions give, from the value
    of the counter on entry, and leaves the counter after the last one. *)
Lemma process_loop_from (fs : OS.node) (pom_files : list OS.path)
  (h : string) (n : nat) :
  for_each pom_files (h, n) (process_file fs)
  = results <- mapM (extract_project_info fs) pom_files ;;
    Ok (h ++ table_rows n (somes results), n + List.length (somes results)).
Proof.
  revert h n; induction pom_files as [|p ps IH]; intros h n; simpl.
  - unfold table_rows; simpl; now rewrite str_app_nil_r, Nat.add_0_r.
  - destruct (extract_project_info fs p) as [[r|]|e]; simpl; [| |reflexivity].
    + rewrite IH; destruct (mapM (extract_project_info fs) ps) as [rs|e]; simpl;
        [|reflexivity].
      rewrite table_rows_cons, add_row_table_row, str_app_assoc.
      replace (n + 1 + List.length (somes rs))
        with (n + S (List.length (somes rs))) by lia.
      now rewrite Nat.add_1_r.
    + rewrite IH; now destruct (mapM (extract_project_info fs) ps).
Qed.

End ReportFacts.

(* ------------------------------------------------------------------------- *)
(** * Lemmas on paths                                                         *)
(* ------------------------------------------------------------------------- *)

Section PathFacts.

(** A joined path is not the empty path: it names what lookup gives. *)
Lemma named_join (fs : OS.node) (p : OS.path) (name : string) :
  OS.named fs (OS.join p name) = OS.lookup fs (OS.join p name).
Proof. unfold OS.join; destruct p; reflexivity. Qed.

Lemma named_properties_path (fs : OS.node) (project_path : OS.path) :
  OS.named fs (properties_path project_path)
  = OS.lookup fs (properties_path project_path).
Proof. unfold properties_path; apply named_join. Qed.

Lemma named_some (fs : OS.node) (p : OS.path) (n : OS.node) :
  OS.named fs p = Some n -> p <> [] /\ OS.lookup fs p = Some n.
Proof. destruct p; [discriminate | intros H; split; [discriminate | exact H]]. Qed.

End PathFacts.

(* ------------------------------------------------------------------------- *)
(** * Lemmas on the extraction                                                *)
(* ------------------------------------------------------------------------- *)

Section ExtractFacts.

Import ET.

(** How the body of the artifactItem loop ends, by the shape of the item.
    The lemmas are about the loop body with the lookup of a property as
    [ET.find_name] has it, one step of a path; they speak of the program for
    the items of [plain_placeholder]. *)
Lemma api_dependency_missing_child (root item : Element) :
  find item "groupId" = None \/ find item "artifactId" = None ->
  api_dependency root item = Raise AttributeError.
Proof.
  unfold api_dependency; intros [H|H]; rewrite H; simpl; [reflexivity|].
  now destruct (find item "groupId").
Qed.

Lemma api_dependency_no_version (root item g a : Element) :
  find item "groupId" = Some g -> find item "artifactId" = Some a ->
  find item "version" = None ->
  api_dependency root item = Ok (fmt (text g) ++ ":" ++ fmt (text a)).
Proof. unfold api_dependency; intros -> -> ->; reflexivity. Qed.

Lemma api_dependency_empty_version (root item g a ve : Element) :
  find item "groupId" = Some g -> find item "artifactId" = Some a ->
  find item "version" = Some ve -> text ve = None ->
  api_dependency root item = Raise TypeError.
Proof. unfold api_dependency; intros -> -> -> ->; reflexivity. Qed.

Lemma api_dependency_version_text (root item g a ve : Element) (t : string) :
  find item "groupId" = Some g -> find item "artifactId" = Some a ->
  find item "version" = Some ve -> text ve = Some t ->
  exists s, api_dependency root item = Ok s.
Proof.
  unfold api_dependency; intros -> -> -> ->; simpl.
  destruct (contains "${" t && contains "}" t); [|eauto].
  destruct (truthy _); eauto.
Qed.

(** With the lookup of a property as one step of a path, the body
    returns, or raises AttributeError, or raises TypeError. *)
Lemma api_dependency_outcomes (root item : Element) :
  (exists s, api_dependency root item = Ok s)
  \/ api_dependency root item = Raise AttributeError
  \/ api_dependency root item = Raise TypeError.
Proof.
  destruct (find item "groupId") as [g|] eqn:Hg;
    [|right; left; apply api_dependency_missing_child; auto].
  destruct (find item "artifactId") as [a|] eqn:Ha;
    [|right; left; apply api_dependency_missing_child; auto].
  destruct (find item "version") as [ve|] eqn:Hv;
    [|left; eexists; eapply api_dependency_no_version; eauto].
  destruct (text ve) as [t|] eqn:Ht.
  - left; eapply api_dependency_version_text; eauto.
  - right; right; eapply api_dependency_empty_version; eauto.
Qed.

Lemma dependency_name_missing_child (dep : Element) :
  find dep "groupId" = None \/ find dep "artifactId" = None ->
  dependency_name dep = Raise AttributeError.
Proof.
  unfold dependency_name; intros [H|H]; rewrite H; simpl; [reflexivity|].
  now destruct (find dep "groupId").
Qed.

Lemma dependency_name_outcomes (dep : Element) :
  (exists s, dependency_name dep = Ok s)
  \/ dependency_name dep = Raise AttributeError.
Proof.
  unfold dependency_name.
  destruct (find dep "groupId"); simpl; [|auto].
  destruct (find dep "artifactId"); simpl; eauto.
Qed.

(** A line of the properties file never raises out of the loop body. *)
Lemma read_env_line_returns (env : dict) (line : string) :
  exists env', read_env_line env line = Ok env'.
Proof.
  unfold read_env_line.
  destruct (negb (strip line =? "") && negb (startswith (strip line) "#")); [|eauto].
  unfold split1; destruct (cut "=" (strip line)) as [[k v]|]; simpl; eauto.
Qed.

Lemma read_env_lines_return (lines : list string) (env : dict) :
  exists env', for_each lines env read_env_line = Ok env'.
Proof.
  revert env; induction lines as [|l lines IH]; intros env; simpl; [eauto|].
  destruct (read_env_line_returns env l) as [env' ->]; simpl; apply IH.
Qed.

(** What read_env_variables does, by what the path of
    application.properties names. *)
Lemma read_env_variables_by_kind (fs : OS.node) (project_path : OS.path) :
  match OS.lookup fs (properties_path project_path) with
  | None => read_env_variables fs project_path = Ok []
  | Some (OS.File f) =>
      read_env_variables fs project_path
      = for_each (OS.file_lines f) [] read_env_line
  | Some (OS.Dir _) => read_env_variables fs project_path = Raise OSError
  | Some (OS.Binary _) =>
      read_env_variables fs project_path = Raise UnicodeDecodeError
  end.
Proof.
  unfold read_env_variables, OS.exists_, OS.read_lines.
  rewrite named_properties_path.
  destruct (OS.lookup fs (properties_path project_path)) as [[f|es|x]|];
    reflexivity.
Qed.

Lemma read_env_variables_file (fs : OS.node) (project_path : OS.path)
  (f : OS.file) :
  OS.lookup fs (properties_path project_path) = Some (OS.File f) ->
  read_env_variables fs project_path
  = for_each (OS.file_lines f) [] read_env_line.
Proof.
  intros Hf; pose proof (read_env_variables_by_kind fs project_path) as H.
  now rewrite Hf in H.
Qed.

(** extract_project_info on a descriptor that parses and has both
    identifier elements. *)
Lemma extract_unfold (fs : OS.node) (pom_file : OS.path) (root g a : Element) :
  ET_parse fs pom_file = Ok root ->
  find root "groupId" = Some g -> find root "artifactId" = Some a ->
  extract_project_info fs pom_file
  = try_except
      (apis <- mapM (api_dependency root) (findall root "artifactItem") ;;
       deps <- mapM dependency_name (findall root "dependency") ;;
       env <- read_env_variables fs (OS.dirname pom_file) ;;
       Ok (Some (mkRecord (fmt (text g) ++ ":<b>" ++ fmt (text a) ++ "</b>")
                   (sorted apis) deps env pom_file)))
      [ParseError; AttributeError]
      (Ok None).
Proof.
  intros Hp Hg Ha; unfold extract_project_info.
  rewrite Hp; simpl bind; rewrite Hg, Ha, !for_each_append.
  destruct (mapM (api_dependency root) _); simpl; [|reflexivity].
  destruct (mapM dependency_name _); reflexivity.
Qed.


Lemma extract_missing_identifier (fs : OS.node) (pom_file : OS.path)
  (root : Element) :
  ET_parse fs pom_file = Ok root ->
  find root "groupId" = None \/ find root "artifactId" = None ->
  extract_project_info fs pom_file = Ok None.
Proof.
  intros Hp H; unfold extract_project_info; rewrite Hp; simpl bind.
  destruct H as [-> | ->]; [reflexivity | now destruct (find root "groupId")].
Qed.

(** What a record tells about the descriptor it comes from. *)
Lemma extract_record_inv (fs : OS.node) (pom_file : OS.path) (r : ProjectRecord) :
  extract_project_info fs pom_file = Ok (Some r) ->
  exists root g a apis deps env,
    ET_parse fs pom_file = Ok root
    /\ find root "groupId" = Some g /\ find root "artifactId" = Some a
    /\ mapM (api_dependency root) (findall root "artifactItem") = Ok apis
    /\ mapM dependency_name (findall root "dependency") = Ok deps
    /\ read_env_variables fs (OS.dirname pom_file) = Ok env
    /\ r = mkRecord (fmt (text g) ++ ":<b>" ++ fmt (text a) ++ "</b>")
             (sorted apis) deps env pom_file.
Proof.
  intros H.
  destruct (ET_parse fs pom_file) as [root|e] eqn:Hp.
  2:{ unfold extract_project_info in H; rewrite Hp in H; simpl in H.
      destruct e; discriminate. }
  destruct (find root "groupId") as [g|] eqn:Hg.
  2:{ rewrite (extract_missing_identifier _ _ _ Hp (or_introl Hg)) in H; discriminate. }
  destruct (find root "artifactId") as [a|] eqn:Ha.
  2:{ rewrite (extract_missing_identifier _ _ _ Hp (or_intror Ha)) in H; discriminate. }
  rewrite (extract_unfold _ _ _ _ _ Hp Hg Ha) in H.
  destruct (mapM (api_dependency root) _) as [apis|e] eqn:Hapis; simpl in H;
    [|destruct e; discriminate].
  destruct (mapM dependency_name _) as [deps|e] eqn:Hdeps; simpl in H;
    [|destruct e; discriminate].
  destruct (read_env_variables fs _) as [env|e] eqn:Henv; simpl in H;
    [|destruct e; discriminate].
  injection H as <-.
  exists root, g, a, apis, deps, env; repeat split; auto.
Qed.

End ExtractFacts.

(* ------------------------------------------------------------------------- *)
(** * The descriptor extractor: which files give a record                     *)
(* ------------------------------------------------------------------------- *)

Section Records.

Import ET Samples.




(** C2 fails on the code: an artifactItem whose version element has no
    text (<version/>) makes extract_project_info raise TypeError, which its
    except clause does not name; the exception leaves process_projects too,
    and no report is written. *)
Theorem empty_version_aborts_run :
  extract_project_info (project_fs (Some empty_version) None) A_pom
  = Raise TypeError
  /\ process_projects (project_fs (Some empty_version) None) ["root"] false
     = Raise TypeError
  /\ process_projects (project_fs (Some empty_version) None) ["root"] true
     = Raise TypeError.
Proof. repeat split; reflexivity. Qed.

(** C5 fails on the code, by the defect of C2: a descriptor with a
    dependency that has no groupId child, and before it an artifactItem whose
    version element has no text, does not return absent: TypeError leaves
    extract_project_info before the dependency is read. *)
Theorem bare_dependency_after_empty_version :
  (exists dep,
      In dep (findall empty_version_then_bare_dependency "dependency")
      /\ find dep "groupId" = None)
  /\ extract_project_info
       (project_fs (Some empty_version_then_bare_dependency) None) A_pom
     = Raise TypeError.
Proof.
  split; [|reflexivity].
  exists (el "dependency" None [ leaf "artifactId" "core" ]).
  split; [left; reflexivity | reflexivity].
Qed.

(** With the lookup of a property as one step of a path: where every
    version element of an artifactItem has text, one artifactItem or
    dependency without a groupId or artifactId child makes the extraction
    return absent for the whole file. *)
Lemma missing_child_fails_file (fs : OS.node) (pom_file : OS.path) (root : Element) :
  ET_parse fs pom_file = Ok root ->
  (forall item ve,
      In item (findall root "artifactItem") ->
      find item "version" = Some ve -> text ve <> None) ->
  (exists e,
      (In e (findall root "artifactItem") \/ In e (findall root "dependency"))
      /\ (find e "groupId" = None \/ find e "artifactId" = None)) ->
  extract_project_info fs pom_file = Ok None.
Proof.
  intros Hp Hver (e & Hin & Hmiss).
  destruct (find root "groupId") as [g|] eqn:Hg;
    [|apply (extract_missing_identifier _ _ _ Hp); auto].
  destruct (find root "artifactId") as [a|] eqn:Ha;
    [|apply (extract_missing_identifier _ _ _ Hp); auto].
  rewrite (extract_unfold _ _ _ _ _ Hp Hg Ha).
  assert (Hitems : forall x, In x (findall root "artifactItem") ->
            (exists s, api_dependency root x = Ok s)
            \/ api_dependency root x = Raise AttributeError).
  { intros x Hx.
    destruct (api_dependency_outcomes root x) as [H|[H|H]]; auto.
    exfalso.
    destruct (find x "groupId") as [xg|] eqn:Hxg;
      [|rewrite api_dependency_missing_child in H by auto; discriminate].
    destruct (find x "artifactId") as [xa|] eqn:Hxa;
      [|rewrite api_dependency_missing_child in H by auto; discriminate].
    destruct (find x "version") as [ve|] eqn:Hxv;
      [|rewrite (api_dependency_no_version _ _ _ _ Hxg Hxa Hxv) in H; discriminate].
    destruct (text ve) as [t|] eqn:Ht; [|exact (Hver x ve Hx Hxv Ht)].
    destruct (api_dependency_version_text root _ _ _ _ _ Hxg Hxa Hxv Ht) as [s Hs].
    rewrite Hs in H; discriminate. }
  destruct (mapM (api_dependency root) (findall root "artifactItem"))
    as [apis|e1] eqn:Hapis; simpl.
  - destruct Hin as [Hin|Hin].
    + rewrite (mapM_raises _ _ AttributeError e Hitems Hin
                 (api_dependency_missing_child root e Hmiss)) in Hapis.
      discriminate.
    + rewrite (mapM_raises dependency_name _ AttributeError e
                 (fun x _ => dependency_name_outcomes x) Hin
                 (dependency_name_missing_child e Hmiss)).
      reflexivity.
  - apply mapM_raise in Hapis as (x & Hx & Hr).
    destruct (Hitems x Hx) as [[s Hs]|Hs]; rewrite Hs in Hr;
      [discriminate | injection Hr as <-; reflexivity].
Qed.

End Records.

(* ------------------------------------------------------------------------- *)
(** * API dependencies: placeholders and order                                *)
(* ------------------------------------------------------------------------- *)

Section ApiDependencies.

Import ET Samples.

(** For a name that is one step of a path, the lookup of a property
    compares tags. *)
Lemma find_name_of_step (e : Element) (name : string) :
  name_step name = true -> find_name e name = find e name.
Proof.
  unfold name_step, find_name; intros H.
  apply andb_true_iff in H as [H _]; apply negb_true_iff in H; now rewrite H.
Qed.

Lemma truthy_text (v : string) : v <> "" -> truthy (Some v) = true.
Proof. destruct v; [congruence | reflexivity]. Qed.

(** The artifactItem loop body on a version that is the placeholder of
    [x]. *)
Lemma api_dependency_placeholder (root item g a ve : Element) (x : string) :
  find item "groupId" = Some g -> find item "artifactId" = Some a ->
  find item "version" = Some ve -> text ve = Some ("${" ++ x ++ "}") ->
  api_dependency root item
  = Ok (fmt (text g) ++ ":" ++ fmt (text a) ++ " ("
        ++ (if truthy (resolve_property root x)
            then fmt (resolve_property root x)
            else "${" ++ x ++ "}")
        ++ ")").
Proof.
  unfold api_dependency; intros Hg Ha Hv Ht.
  rewrite Hg, Ha, Hv; unfold text_of, bind; rewrite Ht.
  rewrite placeholder_test, placeholder_slice.
  now destruct (truthy (resolve_property root x)).
Qed.

(** What is appended for an item is in the list that the record stores. *)
Lemma api_dependency_recorded (fs : OS.node) (pom_file : OS.path)
  (root item : Element) (r : ProjectRecord) (s : string) :
  ET_parse fs pom_file = Ok root ->
  extract_project_info fs pom_file = Ok (Some r) ->
  In item (findall root "artifactItem") ->
  api_dependency root item = Ok s ->
  In s (api_dependencies r).
Proof.
  intros Hp Hr Hin Hs.
  destruct (extract_record_inv _ _ _ Hr)
    as (root' & g & a & apis & deps & env & Hp' & _ & _ & Hapis & _ & _ & ->).
  rewrite Hp in Hp'; injection Hp' as <-; simpl.
  eapply Permutation_in; [apply sorted_perm|].
  eapply mapM_ok_in; eauto.
Qed.

(** The part of C3 that the code keeps: an artifactItem whose version text
    is the placeholder of a name [x] that is one step of a path, as element
    names are.  If the properties child of the root has a child named [x]
    with text [v], the string recorded for the item is group:artifact (v); if
    the properties child has no child named [x] (or the root has no
    properties child), the string keeps the placeholder.  In both cases the
    string is in the apiDependencies of the record that the extraction gives.
    The properties child and its child [x] are the ones that find returns,
    the first of their name. *)
Theorem placeholder_version_resolved_or_kept
  (root item g a ve : Element) (x : string) :
  name_step x = true ->
  In item (findall root "artifactItem") ->
  find item "groupId" = Some g -> find item "artifactId" = Some a ->
  find item "version" = Some ve -> text ve = Some ("${" ++ x ++ "}") ->
  (forall properties prop v,
      find root "properties" = Some properties ->
      find properties x = Some prop -> text prop = Some v -> v <> "" ->
      api_dependency root item
      = Ok (fmt (text g) ++ ":" ++ fmt (text a) ++ " (" ++ v ++ ")"))
  /\ ((forall properties,
          find root "properties" = Some properties -> find properties x = None) ->
      api_dependency root item
      = Ok (fmt (text g) ++ ":" ++ fmt (text a) ++ " (${" ++ x ++ "})"))
  /\ (forall fs pom_file r s,
         ET_parse fs pom_file = Ok root ->
         extract_project_info fs pom_file = Ok (Some r) ->
         api_dependency root item = Ok s ->
         In s (api_dependencies r)).
Proof.
  intros Hstep Hin Hg Ha Hv Ht.
  pose proof (api_dependency_placeholder root item g a ve x Hg Ha Hv Ht) as E.
  repeat split.
  - intros ps pe v Hps Hpe Hv' Hne.
    rewrite E; unfold resolve_property.
    rewrite Hps, (find_name_of_step _ _ Hstep), Hpe, Hv'.
    now rewrite truthy_text.
  - intros Hnone.
    rewrite E; unfold resolve_property.
    destruct (find root "properties") as [ps|] eqn:Hps;
      [rewrite (find_name_of_step _ _ Hstep), (Hnone ps eq_refl)|];
      simpl; now rewrite !str_app_assoc.
  - intros fs pom_file r s Hp Hr Hs.
    eapply api_dependency_recorded; eauto.
Qed.

Lemma placeholder_version_resolved_or_kept_witness :
  api_dependency placeholders (item "org.a" "one" [ leaf "version" "${x}" ])
  = Ok "org.a:one (1.2.3)"
  /\ api_dependency placeholders (item "org.b" "two" [ leaf "version" "${y}" ])
     = Ok "org.b:two (${y})".
Proof.
  split.
  - refine (proj1 (placeholder_version_resolved_or_kept placeholders
                     (item "org.a" "one" [ leaf "version" "${x}" ])
                     (leaf "groupId" "org.a") (leaf "artifactId" "one")
                     (leaf "version" "${x}") "x"
                     eq_refl _ eq_refl eq_refl eq_refl eq_refl)
                  (el "properties" None [ leaf "x" "1.2.3"; empty "p" ])
                  (leaf "x" "1.2.3") "1.2.3" eq_refl eq_refl eq_refl _).
    + simpl; tauto.
    + discriminate.
  - refine (proj1 (proj2 (placeholder_version_resolved_or_kept placeholders
                     (item "org.b" "two" [ leaf "version" "${y}" ])
                     (leaf "groupId" "org.b") (leaf "artifactId" "two")
                     (leaf "version" "${y}") "y"
                     eq_refl _ eq_refl eq_refl eq_refl eq_refl)) _).
    + simpl; tauto.
    + intros ps Hps; injection Hps as <-; reflexivity.
Defined.

(** C3 fails on the code: the name between the braces goes into the path
    of the lookup as it stands, and [*] is the wildcard of the path language.
    In a descriptor whose properties element holds x = 1.2.3 and no child
    named [*], the artifactItem with version ${*} is recorded with the value
    of x, group:artifact (1.2.3), not with its placeholder. *)
Theorem wildcard_placeholder_resolved :
  find wildcard_placeholder "properties"
  = Some (el "properties" None [ leaf "x" "1.2.3" ])
  /\ (forall c,
         In c (children (el "properties" None [ leaf "x" "1.2.3" ])) ->
         has_tag "*" c = false)
  /\ api_dependency wildcard_placeholder
       (item "org.a" "one" [ leaf "version" "${*}" ])
     = Ok "org.a:one (1.2.3)"
  /\ extract_project_info (project_fs (Some wildcard_placeholder) None) A_pom
     = Ok (Some (mkRecord "com.acme:<b>widget</b>" ["org.a:one (1.2.3)"]
                   [] [] A_pom)).
Proof.
  split; [reflexivity|]; split; [|split; reflexivity].
  intros c [<-|[]]; reflexivity.
Qed.

(** C9: an artifactItem whose version text is the placeholder of [p],
    where the properties child of the root has a child named [p] without
    text: the resolution counts as failed and the string recorded for the
    item keeps the placeholder, group:artifact (${p}). *)
Theorem placeholder_of_empty_property_kept
  (root item g a ve properties prop : Element) (p : string) :
  name_step p = true ->
  In item (findall root "artifactItem") ->
  find item "groupId" = Some g -> find item "artifactId" = Some a ->
  find item "version" = Some ve -> text ve = Some ("${" ++ p ++ "}") ->
  find root "properties" = Some properties ->
  find properties p = Some prop ->
  text prop = None \/ text prop = Some "" ->
  resolve_property root p = text prop
  /\ api_dependency root item
     = Ok (fmt (text g) ++ ":" ++ fmt (text a) ++ " (${" ++ p ++ "})")
  /\ (forall fs pom_file r,
         ET_parse fs pom_file = Ok root ->
         extract_project_info fs pom_file = Ok (Some r) ->
         In (fmt (text g) ++ ":" ++ fmt (text a) ++ " (${" ++ p ++ "})")
            (api_dependencies r)).
Proof.
  intros Hstep Hin Hg Ha Hv Ht Hps Hpe Hempty.
  assert (Hres : resolve_property root p = text prop)
    by (unfold resolve_property;
        now rewrite Hps, (find_name_of_step _ _ Hstep), Hpe).
  assert (E : api_dependency root item
              = Ok (fmt (text g) ++ ":" ++ fmt (text a) ++ " (${" ++ p ++ "})")).
  { rewrite (api_dependency_placeholder root item g a ve p Hg Ha Hv Ht), Hres.
    destruct Hempty as [-> | ->]; simpl; now rewrite !str_app_assoc. }
  repeat split; auto.
  intros fs pom_file r Hp Hr; eapply api_dependency_recorded; eauto.
Qed.

Lemma placeholder_of_empty_property_kept_witness :
  api_dependency placeholders (item "org.a" "nil" [ leaf "version" "${p}" ])
  = Ok "org.a:nil (${p})".
Proof.
  refine (proj1 (proj2 (placeholder_of_empty_property_kept placeholders
                    (item "org.a" "nil" [ leaf "version" "${p}" ])
                    (leaf "groupId" "org.a") (leaf "artifactId" "nil")
                    (leaf "version" "${p}")
                    (el "properties" None [ leaf "x" "1.2.3"; empty "p" ])
                    (empty "p") "p"
                    eq_refl _ eq_refl eq_refl eq_refl eq_refl eq_refl eq_refl
                    (or_introl eq_refl)))).
  simpl; tauto.
Defined.

(** C4: in every record that the extraction gives, apiDependencies is the
    ascending arrangement of the strings formatted for the artifactItem
    elements, the same whatever the order of the elements in the document,
    and dependencies holds the strings of the dependency elements in document
    order: the string at each position is the one of the dependency element
    at that position. *)
Theorem api_sorted_dependencies_in_document_order
  (fs : OS.node) (pom_file : OS.path) (r : ProjectRecord) :
  extract_project_info fs pom_file = Ok (Some r) ->
  exists root apis,
    ET_parse fs pom_file = Ok root
    /\ mapM (api_dependency root) (findall root "artifactItem") = Ok apis
    /\ Sorted str_le (api_dependencies r)
    /\ Permutation apis (api_dependencies r)
    /\ (forall apis', Permutation apis apis' -> sorted apis' = api_dependencies r)
    /\ Forall2 (fun dependency s => dependency_name dependency = Ok s)
         (findall root "dependency") (dependencies r).
Proof.
  intros Hr.
  destruct (extract_record_inv _ _ _ Hr)
    as (root & g & a & apis & deps & env & Hp & _ & _ & Hapis & Hdeps & _ & ->).
  exists root, apis; simpl; repeat split; auto.
  - apply sorted_ok.
  - apply sorted_perm.
  - intros apis' Hperm; symmetry; now apply sorted_order_irrelevant.
  - now apply mapM_ok_pointwise.
Qed.

Lemma api_sorted_dependencies_in_document_order_witness :
  exists r,
    extract_project_info (project_fs (Some placeholders) None) A_pom = Ok (Some r)
    /\ api_dependencies r
       = ["org.a:bare"; "org.a:nil (${p})"; "org.a:one (1.2.3)"; "org.b:two (${y})"]
    /\ Sorted str_le (api_dependencies r).
Proof.
  eexists; split; [reflexivity|]; split; [reflexivity|].
  destruct (api_sorted_dependencies_in_document_order
              (project_fs (Some placeholders) None) A_pom _ eq_refl)
    as (root & apis & _ & _ & Hs & _).
  exact Hs.
Defined.

End ApiDependencies.

(* ------------------------------------------------------------------------- *)
(** * The environment reader                                                  *)
(* ------------------------------------------------------------------------- *)

Section EnvironmentReader.

Import Samples.

Lemma isspace_no_equals (ws : string) : all_space ws -> no_char "="%char ws.
Proof.
  induction ws as [|c ws IH]; intros H; [unfold no_char; simpl; tauto|].
  apply all_space_cons in H as [Hc Hws].
  apply no_char_cons; split; [intros ->; discriminate | auto].
Qed.

Lemma strip_line_head (ws : string) (c : ascii) (rest : string) :
  all_space ws -> isspace c = false ->
  strip (ws ++ String c rest) = String c (rstrip rest).
Proof.
  intros Hws Hc; unfold strip.
  rewrite lstrip_all_space by exact Hws.
  simpl lstrip; rewrite Hc; now apply rstrip_cons_nonspace.
Qed.

Lemma strip_around_equals (key value : string) :
  strip (key ++ "=" ++ value) = lstrip key ++ "=" ++ rstrip value.
Proof.
  unfold strip.
  change (key ++ "=" ++ value) with (key ++ String "="%char value).
  rewrite lstrip_app_nonspace by reflexivity.
  now rewrite rstrip_app_nonspace by reflexivity.
Qed.

(** The loop body does to the mapping what the reading of the line says. *)
Lemma read_env_line_entry (env : dict) (line : string)
  (e : option (string * string)) :
  line_entry line e -> read_env_line env line = Ok (put_entry env e).
Proof.
  intros H; unfold read_env_line; destruct H as
    [line Hblank | ws rest Hws | line Hno | ws c rest key value Hws Hc Hhash Heq Hkey].
  - now rewrite strip_all_space.
  - change (ws ++ "#" ++ rest) with (ws ++ String "#"%char rest).
    rewrite strip_line_head by (assumption || reflexivity).
    now rewrite startswith_char.
  - destruct (negb (strip line =? "") && negb (startswith (strip line) "#"));
      [|reflexivity].
    unfold split1.
    now rewrite (proj2 (cut_none "=" (strip line)) (no_char_strip _ _ Hno)).
  - assert (Hcond : negb (strip (ws ++ String c rest) =? "")
                    && negb (startswith (strip (ws ++ String c rest)) "#") = true).
    { rewrite strip_line_head by assumption.
      rewrite startswith_char.
      replace (Ascii.eqb "#" c) with false; [reflexivity|].
      symmetry; apply Ascii.eqb_neq; congruence. }
    rewrite Hcond, Heq, strip_around_equals.
    unfold split1.
    change (lstrip key ++ "=" ++ rstrip value)
      with (lstrip key ++ String "="%char (rstrip value)).
    rewrite cut_app by (apply no_char_lstrip, Hkey).
    simpl; now rewrite strip_lstrip, strip_rstrip.
Qed.

(** Every line has a reading. *)
Lemma line_entry_total (line : string) : exists e, line_entry line e.
Proof.
  destruct (lstrip_split line) as [ws [Hws Heq]].
  destruct (lstrip line) as [|c rest] eqn:Hl.
  - exists None; apply line_blank; now apply lstrip_empty_all_space.
  - pose proof (lstrip_head _ _ _ Hl) as Hc.
    destruct (ascii_dec c "#") as [->|Hhash].
    + exists None; rewrite Heq; apply line_comment, Hws.
    + destruct (cut "=" line) as [[key value]|] eqn:Hcut.
      * apply cut_some in Hcut as [Hkv Hkey].
        exists (Some (strip key, strip value)); rewrite Heq.
        apply line_assignment; auto; now rewrite <- Heq.
      * exists None; apply line_no_equals; now apply cut_none.
Qed.

Lemma lines_entries_total (lines : list string) :
  exists entries, Forall2 line_entry lines entries.
Proof.
  induction lines as [|l lines [es Hes]]; [exists []; constructor|].
  destruct (line_entry_total l) as [e He]; exists (e :: es); now constructor.
Qed.

Lemma read_env_lines_entries (lines : list string)
  (entries : list (option (string * string))) (env : dict) :
  Forall2 line_entry lines entries ->
  for_each lines env read_env_line = Ok (fold_left put_entry entries env).
Proof.
  intros H; revert env; induction H as [|l e lines es He _ IH]; intros env;
    simpl; [reflexivity|].
  rewrite (read_env_line_entry env l e He); simpl; apply IH.
Qed.

(** C7: read_env_variables returns the empty mapping when
    application.properties does not exist; when it is a file, every line has
    a reading (nothing for a blank line, a comment line or a line without =;
    otherwise the trimmed text before the first = and the trimmed text after
    it), and the mapping returned is the one obtained by assigning the
    readings of the lines in order.  So foo.bar=baz=qux assigns baz=qux to
    foo.bar, and KEY= assigns the empty string to KEY. *)
Theorem read_env_variables_by_line (fs : OS.node) (project_path : OS.path) :
  (OS.exists_ fs (properties_path project_path) = false ->
   read_env_variables fs project_path = Ok [])
  /\ (forall f,
         OS.lookup fs (properties_path project_path) = Some (OS.File f) ->
         (exists entries, Forall2 line_entry (OS.file_lines f) entries)
         /\ (forall entries,
                Forall2 line_entry (OS.file_lines f) entries ->
                read_env_variables fs project_path
                = Ok (fold_left put_entry entries [])))
  /\ (forall env,
         read_env_line env ("foo.bar=baz=qux" ++ nl)
         = Ok (dict_set env "foo.bar" "baz=qux")
         /\ read_env_line env ("KEY=" ++ nl) = Ok (dict_set env "KEY" "")
         /\ read_env_line env ("no equals sign" ++ nl) = Ok env
         /\ read_env_line env ("  # comment" ++ nl) = Ok env
         /\ read_env_line env nl = Ok env).
Proof.
  split; [|split].
  - intros H; unfold read_env_variables; now rewrite H.
  - intros f Hf; split; [apply lines_entries_total|].
    intros entries He; rewrite (read_env_variables_file _ _ _ Hf).
    now apply read_env_lines_entries.
  - intros env; repeat split; reflexivity.
Qed.

Ltac not_among_chars :=
  let H := fresh in
  intros H; simpl in H; repeat (destruct H as [H|H]; [discriminate|]); exact H.

Lemma read_env_variables_by_line_witness :
  OS.exists_ (project_fs (Some widget) None) (properties_path ["root"; "A"]) = false
  /\ read_env_variables (project_fs (Some widget) None) ["root"; "A"] = Ok []
  /\ read_env_variables
       (project_fs (Some widget)
          (Some ["foo.bar=baz=qux" ++ nl; "  # comment" ++ nl; "KEY=" ++ nl]))
       ["root"; "A"]
     = Ok [("foo.bar", "baz=qux"); ("KEY", "")].
Proof.
  split; [reflexivity|]; split.
  - exact (proj1 (read_env_variables_by_line (project_fs (Some widget) None)
                    ["root"; "A"]) eq_refl).
  - refine (proj2 (proj1 (proj2 (read_env_variables_by_line
              (project_fs (Some widget)
                 (Some ["foo.bar=baz=qux" ++ nl; "  # comment" ++ nl; "KEY=" ++ nl]))
              ["root"; "A"]))
              (OS.mkFile (Raise ParseError)
                 ["foo.bar=baz=qux" ++ nl; "  # comment" ++ nl; "KEY=" ++ nl])
              eq_refl)
              [Some ("foo.bar", "baz=qux"); None; Some ("KEY", "")] _).
    apply Forall2_cons; [|apply Forall2_cons; [|apply Forall2_cons; [|apply Forall2_nil]]].
    + refine (line_assignment "" "f" ("oo.bar=baz=qux" ++ nl)
                "foo.bar" ("baz=qux" ++ nl) _ eq_refl _ eq_refl _).
      * constructor.
      * discriminate.
      * not_among_chars.
    + refine (line_comment "  " (" comment" ++ nl) _).
      repeat constructor.
    + refine (line_assignment "" "K" ("EY=" ++ nl) "KEY" nl _ eq_refl _ eq_refl _).
      * constructor.
      * discriminate.
      * not_among_chars.
Defined.

Lemma dict_get_set (d : dict) (k v : string) : dict_get (dict_set d k v) k = Some v.
Proof.
  induction d as [|[k' v'] d IH]; simpl.
  - now rewrite String.eqb_refl.
  - destruct (String.eqb k' k) eqn:E; simpl; [now rewrite String.eqb_refl|].
    now rewrite E.
Qed.

(** C10: a line whose first character after the leading whitespace is =
    is not ignored: the loop body assigns, to the empty string as key, the
    trimmed text after that =; a file that ends with such a line gives a
    mapping in which the empty key has that value. *)
Theorem line_starting_with_equals (ws rest : string) :
  all_space ws ->
  (forall env,
      read_env_line env (ws ++ "=" ++ rest) = Ok (dict_set env "" (strip rest))
      /\ dict_get (dict_set env "" (strip rest)) "" = Some (strip rest))
  /\ (forall fs project_path f lines,
         OS.lookup fs (properties_path project_path) = Some (OS.File f) ->
         OS.file_lines f = (lines ++ [(ws ++ "=" ++ rest)%string])%list ->
         exists env,
           read_env_variables fs project_path = Ok env
           /\ dict_get env "" = Some (strip rest)).
Proof.
  intros Hws.
  assert (Hline : forall env,
             read_env_line env (ws ++ "=" ++ rest)
             = Ok (dict_set env "" (strip rest))).
  { intros env.
    rewrite (read_env_line_entry env (ws ++ "=" ++ rest)
               (Some (strip ws, strip rest))).
    - simpl; now rewrite (strip_all_space ws Hws).
    - apply (line_assignment ws "="%char rest ws rest); auto.
      + discriminate.
      + now apply isspace_no_equals. }
  split.
  - intros env; split; [apply Hline | apply dict_get_set].
  - intros fs project_path f lines Hf Hlines.
    destruct (read_env_lines_return lines []) as [env Henv].
    exists (dict_set env "" (strip rest)); split; [|apply dict_get_set].
    rewrite (read_env_variables_file _ _ _ Hf), Hlines, for_each_app.
    unfold dict in *; rewrite Henv; simpl.
    now rewrite Hline.
Qed.

Lemma line_starting_with_equals_witness :
  all_space " "
  /\ read_env_line [] (" =value" ++ nl) = Ok [("", "value")].
Proof.
  assert (H : all_space " ") by (repeat constructor).
  split; [exact H|].
  exact (proj1 (proj1 (line_starting_with_equals " " ("value" ++ nl) H) [])).
Defined.

End EnvironmentReader.

(* ------------------------------------------------------------------------- *)
(** * The report: rows and their numbering                                    *)
(* ------------------------------------------------------------------------- *)

Section Report.

Import Samples.

Lemma combine_seq_fst {A : Type} (l : list A) (start : nat) :
  map fst (combine (seq start (List.length l)) l) = seq start (List.length l).
Proof.
  revert start; induction l as [|x l IH]; intros start; simpl;
    [reflexivity | now rewrite IH].
Qed.

Lemma combine_seq_snd {A : Type} (l : list A) (start : nat) :
  map snd (combine (seq start (List.length l)) l) = l.
Proof.
  revert start; induction l as [|x l IH]; intros start; simpl;
    [reflexivity | now rewrite IH].
Qed.

(** C8: the text that a run writes is the head of the table, then one row
    per record that the extractions gave, in the order of the extractions,
    then the closing tags; the rows carry the indices 1..N, N the number of
    records: a file whose extraction returned absent has no row and takes no
    index.  (A run in which an extraction raises writes nothing.) *)
Theorem report_rows_numbered_densely
  (fs : OS.node) (directory : OS.path) (include_subfolders : bool) :
  process_projects fs directory include_subfolders
  = (pom_files <- find_pom_files fs directory include_subfolders ;;
     results <- mapM (extract_project_info fs) pom_files ;;
     Ok (html_head ++ table_rows 1 (somes results) ++ "</table>" ++ "</div>"))
  /\ (forall records : list ProjectRecord,
         table_rows 1 records
         = String.concat ""
             (map (fun ir => table_row (fst ir) (snd ir))
                  (combine (seq 1 (List.length records)) records))
         /\ map fst (combine (seq 1 (List.length records)) records)
            = seq 1 (List.length records)
         /\ map snd (combine (seq 1 (List.length records)) records) = records).
Proof.
  split.
  - unfold process_projects, process_loop.
    destruct (find_pom_files fs directory include_subfolders) as [pom_files|e];
      cbn [bind]; [|reflexivity].
    rewrite process_loop_from.
    destruct (mapM (extract_project_info fs) pom_files) as [results|e];
      cbn [bind]; [|reflexivity].
    now rewrite str_app_assoc.
  - intros records; split; [reflexivity|].
    split; [apply combine_seq_fst | apply combine_seq_snd].
Qed.

(** One descriptor com.acme:widget with one dependency com.acme:core, no
    artifactItem and no properties file: one row, index 1, empty cells for
    the API dependencies and the variables. *)
Example widget_report :
  process_projects (project_fs (Some widget) None) ["root"] false
  = Ok (html_head
        ++ "<tr><td>1</td><td>com.acme:<b>widget</b></td>"
        ++ "<td class='path-column'>root/A/pom.xml</td><td></td>"
        ++ "<td><ul><li>com.acme:core</li></ul></td><td></td></tr>"
        ++ "</table></div>").
Proof. reflexivity. Qed.

(** The descriptor of B has no artifactId: the rows of A and C are
    numbered 1 and 2. *)
Example three_projects_report :
  process_projects three_projects ["root"] false
  = Ok (html_head
        ++ "<tr><td>1</td><td>com.acme:<b>widget</b></td>"
        ++ "<td class='path-column'>root/A/pom.xml</td><td></td>"
        ++ "<td><ul><li>com.acme:core</li></ul></td><td></td></tr>"
        ++ "<tr><td>2</td><td>None:<b>widget</b></td>"
        ++ "<td class='path-column'>root/C/pom.xml</td><td></td>"
        ++ "<td></td><td></td></tr>"
        ++ "</table></div>").
Proof. reflexivity. Qed.

End Report.

(* ------------------------------------------------------------------------- *)
(** * The traversal                                                           *)
(* ------------------------------------------------------------------------- *)

Section Traversal.

Import OS Samples.
Local Open Scope list_scope.

Lemma node_induction (P : node -> Prop) :
  (forall f, P (File f)) ->
  (forall es, Forall (fun e => P (snd e)) es -> P (Dir es)) ->
  (forall xml, P (Binary xml)) ->
  forall n, P n.
Proof.
  intros HF HD HB; fix IH 1; intros [f|es|xml]; [apply HF| |apply HB].
  apply HD; induction es as [|[name sub] es IHes]; constructor; [apply IH | exact IHes].
Qed.

Lemma in_filenames (es : list (string * node)) (name : string) :
  In name (filenames es) <-> exists n, In (name, n) es /\ is_dir n = false.
Proof.
  unfold filenames; rewrite in_map_iff; split.
  - intros [[name' n] [<- Hin]]; apply filter_In in Hin as [Hin Hf].
    exists n; split; [exact Hin | now apply negb_true_iff].
  - intros [n [Hin Hn]]; exists (name, n); split; [reflexivity|].
    apply filter_In; split; [exact Hin | simpl; now rewrite Hn].
Qed.

Lemma resolves_snoc (n : node) (rel : path) (name : string) (n' : node) :
  resolves n (rel ++ [name]) n'
  <-> exists es, resolves n rel (Dir es) /\ In (name, n') es.
Proof.
  split.
  - revert n; induction rel as [|x rel IH]; intros n H; simpl in H.
    + inversion H as [|es name' sub rel' n'' Hin Hsub]; subst.
      inversion Hsub; subst; exists es; split; [constructor | exact Hin].
    + inversion H as [|es name' sub rel' n'' Hin Hsub]; subst.
      destruct (IH _ Hsub) as [es' [Hres Hin']].
      exists es'; split; [econstructor; eauto | exact Hin'].
  - intros [es [Hres Hin]].
    remember (Dir es) as d eqn:Ed.
    induction Hres as [n|es0 x sub rel n0 Hin0 Hsub IH]; simpl.
    + subst n; econstructor; [exact Hin | constructor].
    + econstructor; [exact Hin0 | apply IH, Ed].
Qed.

(** The triples of the walk are the directories below the top, each with
    its own names. *)
Lemma walk_node_spec (n : node) (top root : path) (dirs files : list string) :
  In (root, dirs, files) (walk_node top n)
  <-> exists rel es,
        root = (top ++ rel)%list /\ resolves n rel (Dir es)
        /\ dirs = dirnames es /\ files = filenames es.
Proof.
  split.
  - revert top; induction n as [f|es0 IH|xml] using node_induction; intros top;
      simpl; [tauto| |tauto].
    intros [E|Hin].
    + injection E as <- <- <-; exists [], es0.
      rewrite app_nil_r; repeat split; constructor.
    + apply in_flat_map in Hin as [[name sub] [Hin Hw]].
      rewrite Forall_forall in IH.
      destruct (IH _ Hin _ Hw) as (rel & es & -> & Hres & -> & ->).
      exists (name :: rel), es; unfold join; rewrite <- app_assoc.
      repeat split; econstructor; eauto.
  - intros (rel & es & -> & Hres & -> & ->).
    remember (Dir es) as d eqn:Ed.
    revert top; induction Hres as [n|es0 name sub rel n' Hin Hsub IH]; intros top.
    + subst; rewrite app_nil_r; now left.
    + simpl; right; apply in_flat_map; exists (name, sub); split; [exact Hin|].
      specialize (IH Ed (join top name)); unfold join in *.
      now rewrite <- app_assoc in IH.
Qed.

(** With subfolders, over a tree of directories and regular files,
    find_pom_files returns the paths of the entries named pom.xml that are not
    directories, at every depth below the directory. *)
Lemma find_pom_files_recursive (fs n : node) (directory p : path) :
  named fs directory = Some n ->
  exists l,
    find_pom_files fs directory true = Ok l
    /\ (In p l
        <-> exists rel x,
              p = (directory ++ rel ++ ["pom.xml"])%list
              /\ resolves n (rel ++ ["pom.xml"]) x /\ is_dir x = false).
Proof.
  intros Hl; eexists; split; [reflexivity|].
  unfold walk; rewrite Hl; rewrite in_flat_map; split.
  - intros [[[root dirs] files] [Hw Hin]].
    apply in_map_iff in Hin as [file [<- Hin]].
    apply filter_In in Hin as [Hin Heq]; apply String.eqb_eq in Heq; subst file.
    apply walk_node_spec in Hw as (rel & es & -> & Hres & -> & ->).
    apply in_filenames in Hin as [x [Hin Hx]].
    exists rel, x; unfold join; rewrite <- app_assoc; split; [reflexivity|].
    split; [apply resolves_snoc; eauto | exact Hx].
  - intros (rel & x & -> & Hres & Hx).
    apply resolves_snoc in Hres as [es [Hres Hin]].
    exists ((directory ++ rel)%list, dirnames es, filenames es); split.
    + apply walk_node_spec; exists rel, es; auto.
    + apply in_map_iff; exists "pom.xml"; unfold join; rewrite <- app_assoc.
      split; [reflexivity|].
      apply filter_In; split; [apply in_filenames; eauto | reflexivity].
Qed.

(** Without subfolders, find_pom_files returns, for each subdirectory of
    the directory, the path pom.xml inside it when os.path.exists accepts
    that path. *)
Lemma find_pom_files_direct (fs : node) (directory p : path)
  (es : list (string * node)) :
  named fs directory = Some (Dir es) ->
  exists l,
    find_pom_files fs directory false = Ok l
    /\ (In p l
        <-> exists name sub,
              In (name, Dir sub) es
              /\ p = (directory ++ [name; "pom.xml"])%list
              /\ exists_ fs p = true).
Proof.
  intros Hl; unfold find_pom_files, scandir; rewrite Hl; simpl.
  eexists; split; [reflexivity|].
  rewrite filter_In, !map_map, in_map_iff; unfold join; split.
  - intros [[[name n] [<- Hin]] Hex].
    apply filter_In in Hin as [Hin Hd]; destruct n as [|sub|]; try discriminate.
    simpl in *; rewrite <- app_assoc in *; simpl in *; eauto.
  - intros (name & sub & Hin & -> & Hex); split; [|exact Hex].
    exists (name, Dir sub); simpl; rewrite <- app_assoc; split; [reflexivity|].
    apply filter_In; auto.
Qed.

(** The example of C6: over A/pom.xml and B/nested/pom.xml (and a pom.xml
    in the root itself), the traversal without subfolders finds A/pom.xml
    only; with subfolders it finds all of them. *)
Example find_pom_files_two_projects :
  find_pom_files two_projects ["root"] false = Ok [["root"; "A"; "pom.xml"]]
  /\ find_pom_files two_projects ["root"] true
     = Ok [ ["root"; "pom.xml"]; ["root"; "A"; "pom.xml"];
            ["root"; "B"; "nested"; "pom.xml"] ].
Proof. split; reflexivity. Qed.

(** C6 fails on the code: where root/A/pom.xml is a directory, the
    traversal without subfolders returns its path although it is not a file
    (os.path.exists accepts a directory), while the traversal with
    subfolders, which takes the names from the files of os.walk, does not;
    the run then stops on that path with an OSError that
    extract_project_info does not catch. *)
Theorem pom_directory_listed :
  lookup pom_directory ["root"; "A"; "pom.xml"] = Some (Dir [])
  /\ find_pom_files pom_directory ["root"] false = Ok [["root"; "A"; "pom.xml"]]
  /\ find_pom_files pom_directory ["root"] true = Ok []
  /\ process_projects pom_directory ["root"] false = Raise OSError.
Proof. repeat split; reflexivity. Qed.

End Traversal.

(* ------------------------------------------------------------------------- *)
(** * Further properties of the traversal                                     *)
(* ------------------------------------------------------------------------- *)

Section TraversalMore.

Import OS Samples.
Local Open Scope list_scope.

(** X1: with subfolders, every path that find_pom_files returns is pom.xml
    at some depth below the directory, reached through the directories that
    the tree lists, and what it names is not a directory. *)
Theorem recursive_traversal_sound
  (fs : node) (directory p : path) (l : list path) :
  find_pom_files fs directory true = Ok l ->
  In p l ->
  exists n rel x,
    lookup fs directory = Some n
    /\ p = directory ++ rel ++ ["pom.xml"]
    /\ resolves n (rel ++ ["pom.xml"]) x
    /\ is_dir x = false.
Proof.
  intros Hl Hin.
  destruct (named fs directory) as [n|] eqn:Hn.
  - destruct (find_pom_files_recursive fs n directory p Hn) as (l' & Hl' & Hiff).
    rewrite Hl in Hl'; injection Hl' as <-.
    apply Hiff in Hin; destruct Hin as (rel & x & Hp & Hres & Hx).
    apply named_some in Hn as [_ Hn].
    exists n, rel, x; auto.
  - unfold find_pom_files, walk in Hl; rewrite Hn in Hl.
    injection Hl as <-; destruct Hin.
Qed.

Lemma recursive_traversal_sound_witness :
  exists n rel x,
    lookup two_projects ["root"] = Some n
    /\ ["root"; "B"; "nested"; "pom.xml"] = ["root"] ++ rel ++ ["pom.xml"]
    /\ resolves n (rel ++ ["pom.xml"]) x
    /\ is_dir x = false.
Proof.
  refine (recursive_traversal_sound two_projects ["root"]
            ["root"; "B"; "nested"; "pom.xml"]
            [ ["root"; "pom.xml"]; ["root"; "A"; "pom.xml"];
              ["root"; "B"; "nested"; "pom.xml"] ] eq_refl _).
  simpl; tauto.
Defined.

(** X3: when the directory is missing or is a regular file, the traversal
    with subfolders returns no path and the run writes a table without rows,
    while the traversal without subfolders raises OSError and so does the
    run. *)
Theorem unlistable_directory (fs : node) (directory : path) :
  (forall es, lookup fs directory <> Some (Dir es)) ->
  find_pom_files fs directory true = Ok []
  /\ process_projects fs directory true
     = Ok (html_head ++ "</table>" ++ "</div>")%string
  /\ find_pom_files fs directory false = Raise OSError
  /\ process_projects fs directory false = Raise OSError.
Proof.
  intros Hno.
  assert (Hrec : find_pom_files fs directory true = Ok []).
  { unfold find_pom_files, walk.
    destruct (named fs directory) as [[f|es|xml]|] eqn:Hn; try reflexivity.
    apply named_some in Hn as [_ Hn]; now destruct (Hno es). }
  assert (Hdir : find_pom_files fs directory false = Raise OSError).
  { unfold find_pom_files, scandir.
    destruct (named fs directory) as [[f|es|xml]|] eqn:Hn; try reflexivity.
    apply named_some in Hn as [_ Hn]; now destruct (Hno es). }
  repeat split; auto.
  - unfold process_projects; now rewrite Hrec.
  - unfold process_projects; now rewrite Hdir.
Qed.

Lemma unlistable_directory_witness :
  find_pom_files two_projects ["nowhere"] true = Ok []
  /\ find_pom_files two_projects ["nowhere"] false = Raise OSError
  /\ process_projects two_projects ["root"; "pom.xml"] false = Raise OSError.
Proof.
  assert (H1 : forall es, lookup two_projects ["nowhere"] <> Some (Dir es))
    by (intros es; discriminate).
  assert (H2 : forall es, lookup two_projects ["root"; "pom.xml"] <> Some (Dir es))
    by (intros es; discriminate).
  split; [exact (proj1 (unlistable_directory two_projects ["nowhere"] H1))|].
  split; [exact (proj1 (proj2 (proj2 (unlistable_directory two_projects ["nowhere"] H1))))|].
  exact (proj2 (proj2 (proj2 (unlistable_directory two_projects ["root"; "pom.xml"] H2)))).
Defined.

End TraversalMore.

(* ------------------------------------------------------------------------- *)
(** * Further properties of the extraction                                    *)
(* ------------------------------------------------------------------------- *)

Section ExtractMore.

Import ET Samples.

Lemma mapM_ok_iff {X Y : Type} (f : X -> result Y) (xs : list X) :
  (exists ys, mapM f xs = Ok ys) <-> Forall (fun x => exists y, f x = Ok y) xs.
Proof.
  induction xs as [|x xs IH]; simpl.
  - split; [constructor | eauto].
  - split.
    + intros [ys H].
      destruct (f x) as [y|e] eqn:Hx; simpl in H; [|discriminate].
      destruct (mapM f xs) as [ys'|e] eqn:Hm; simpl in H; [|discriminate].
      constructor; [eauto | apply IH; eauto].
    + intros H; inversion H as [|x' xs' [y Hy] Hrest]; subst.
      apply IH in Hrest as [ys Hys]; rewrite Hy, Hys; simpl; eauto.
Qed.

Lemma mapM_ok_item {X Y : Type} (f : X -> result Y) (xs : list X)
  (ys : list Y) (x : X) :
  mapM f xs = Ok ys -> In x xs -> exists y, f x = Ok y /\ In y ys.
Proof.
  intros Hm Hin.
  assert (H : Forall (fun x => exists y, f x = Ok y) xs)
    by (apply mapM_ok_iff; eauto).
  rewrite Forall_forall in H; destruct (H x Hin) as [y Hy].
  exists y; split; [exact Hy | eapply mapM_ok_in; eauto].
Qed.

Lemma not_complete (e : Element) :
  ~ complete e <-> find e "groupId" = None \/ find e "artifactId" = None.
Proof.
  unfold complete; destruct (find e "groupId"), (find e "artifactId"); split;
    try tauto; try (intros [H|H]; discriminate);
    intros H; exfalso; apply H; split; discriminate.
Qed.

Lemma not_versioned (e : Element) :
  ~ versioned e <-> exists ve, find e "version" = Some ve /\ text ve = None.
Proof.
  unfold versioned; split.
  - intros H; destruct (find e "version") as [ve|]; [|exfalso; apply H; discriminate].
    destruct (text ve) as [t|] eqn:Ht; [|eauto].
    exfalso; apply H; intros ve' E; injection E as <-; congruence.
  - intros (ve & Hv & Ht) H; exact (H ve Hv Ht).
Qed.

Lemma api_dependency_shape (root item : Element) :
  (api_dependency root item = Raise AttributeError <-> ~ complete item)
  /\ (api_dependency root item = Raise TypeError
      <-> complete item /\ ~ versioned item)
  /\ ((exists s, api_dependency root item = Ok s)
      <-> complete item /\ versioned item).
Proof.
  destruct (find item "groupId") as [g|] eqn:Hg.
  2:{ assert (Hnc : ~ complete item) by (apply not_complete; auto).
      rewrite api_dependency_missing_child by auto.
      split; [split; auto|].
      split; split.
      - discriminate.
      - intros [Hc _]; contradiction.
      - intros [s Hs]; discriminate.
      - intros [Hc _]; contradiction. }
  destruct (find item "artifactId") as [a|] eqn:Ha.
  2:{ assert (Hnc : ~ complete item) by (apply not_complete; auto).
      rewrite api_dependency_missing_child by auto.
      split; [split; auto|].
      split; split.
      - discriminate.
      - intros [Hc _]; contradiction.
      - intros [s Hs]; discriminate.
      - intros [Hc _]; contradiction. }
  assert (Hc : complete item)
    by (unfold complete; rewrite Hg, Ha; split; discriminate).
  assert (Hok : forall s, api_dependency root item = Ok s -> versioned item ->
            (Ok s = Raise AttributeError <-> ~ complete item)
            /\ (Ok s = Raise TypeError <-> complete item /\ ~ versioned item)
            /\ ((exists s', Ok s = Ok s') <-> complete item /\ versioned item)).
  { intros s _ Hver.
    split; [split; [discriminate | intros Hn; contradiction]|].
    split; split.
    - discriminate.
    - intros [_ Hn]; contradiction.
    - auto.
    - intros _; eauto. }
  destruct (find item "version") as [ve|] eqn:Hv.
  2:{ pose proof (api_dependency_no_version root item g a Hg Ha Hv) as E.
      rewrite E; apply (Hok _ E).
      intros ve Eve; congruence. }
  destruct (text ve) as [t|] eqn:Ht.
  - destruct (api_dependency_version_text root item g a ve t Hg Ha Hv Ht) as [s E].
    rewrite E; apply (Hok _ E).
    intros ve' Eve; rewrite Hv in Eve; injection Eve as <-; congruence.
  - assert (Hnv : ~ versioned item) by (apply not_versioned; eauto).
    rewrite (api_dependency_empty_version root item g a ve Hg Ha Hv Ht).
    split; [split; [discriminate | intros Hn; contradiction]|].
    split; split.
    + auto.
    + reflexivity.
    + intros [s Hs]; discriminate.
    + intros [_ Hver]; contradiction.
Qed.

Lemma dependency_name_shape (dependency : Element) :
  (dependency_name dependency = Raise AttributeError <-> ~ complete dependency)
  /\ (forall s,
         dependency_name dependency = Ok s
         <-> exists g a,
               find dependency "groupId" = Some g
               /\ find dependency "artifactId" = Some a
               /\ s = fmt (text g) ++ ":" ++ fmt (text a)).
Proof.
  rewrite not_complete; unfold dependency_name.
  destruct (find dependency "groupId") as [g|]; simpl.
  2:{ split; [tauto|]. intros s; split; [discriminate|].
      intros (g & a & E & _); discriminate. }
  destruct (find dependency "artifactId") as [a|]; simpl.
  2:{ split; [tauto|]. intros s; split; [discriminate|].
      intros (g' & a & _ & E & _); discriminate. }
  split.
  - split; [discriminate | intros [E|E]; discriminate].
  - intros s; split.
    + intros E; injection E as <-; eauto.
    + intros (g' & a' & Eg & Ea & ->); injection Eg as <-; injection Ea as <-.
      reflexivity.
Qed.

(** X4: for an artifactItem whose property lookup, if any, is one step of
    a path, what the body of the artifactItem loop does is decided by the
    shape of the item: it raises AttributeError exactly when the groupId or
    the artifactId child is missing, TypeError exactly when both are there and
    the version child has no text, and it returns a string exactly when both
    are there and the version child, if any, has text. *)
Theorem api_dependency_by_shape (root item : Element) :
  plain_placeholder root item ->
  (api_dependency root item = Raise AttributeError <-> ~ complete item)
  /\ (api_dependency root item = Raise TypeError
      <-> complete item /\ ~ versioned item)
  /\ ((exists s, api_dependency root item = Ok s)
      <-> complete item /\ versioned item).
Proof. intros _; exact (api_dependency_shape root item). Qed.

(** X5: the body of the dependency loop raises AttributeError exactly when
    the groupId or the artifactId child is missing; otherwise it returns
    group:artifact, where a child without text counts as the word None. *)
Theorem dependency_name_by_shape (dependency : Element) :
  (dependency_name dependency = Raise AttributeError <-> ~ complete dependency)
  /\ (forall s,
         dependency_name dependency = Ok s
         <-> exists g a,
               find dependency "groupId" = Some g
               /\ find dependency "artifactId" = Some a
               /\ s = fmt (text g) ++ ":" ++ fmt (text a)).
Proof. exact (dependency_name_shape dependency). Qed.

(** X6: for a descriptor whose artifactItem elements all have a property
    lookup that is one step of a path, extract_project_info gives a record
    exactly when the descriptor parses, its root has both identifier
    children, its artifactItem elements all have both identifier children and
    text in their version child, its dependency elements all have both
    identifier children, and application.properties is missing or is a text
    file. *)
Theorem extraction_gives_record_iff (fs : OS.node) (pom_file : OS.path) :
  (forall root,
      ET_parse fs pom_file = Ok root ->
      Forall (plain_placeholder root) (findall root "artifactItem")) ->
  (exists r, extract_project_info fs pom_file = Ok (Some r))
  <-> exists root g a,
        ET_parse fs pom_file = Ok root
        /\ find root "groupId" = Some g /\ find root "artifactId" = Some a
        /\ Forall (fun item => complete item /\ versioned item)
             (findall root "artifactItem")
        /\ Forall complete (findall root "dependency")
        /\ (OS.lookup fs (properties_path (OS.dirname pom_file)) = None
            \/ exists f,
                 OS.lookup fs (properties_path (OS.dirname pom_file))
                 = Some (OS.File f)).
Proof.
  intros _; split.
  - intros [r Hr].
    destruct (extract_record_inv _ _ _ Hr)
      as (root & g & a & apis & deps & env & Hp & Hg & Ha & Hapis & Hdeps & Henv & _).
    exists root, g, a; repeat split; auto.
    + assert (H : Forall (fun x => exists y, api_dependency root x = Ok y)
                    (findall root "artifactItem")) by (apply mapM_ok_iff; eauto).
      rewrite Forall_forall in *; intros x Hx.
      apply (proj2 (proj2 (api_dependency_shape root x))); auto.
    + assert (H : Forall (fun x => exists y, dependency_name x = Ok y)
                    (findall root "dependency")) by (apply mapM_ok_iff; eauto).
      rewrite Forall_forall in *; intros x Hx.
      destruct (H x Hx) as [s Hs].
      apply (proj2 (dependency_name_shape x)) in Hs as (g' & a' & Eg & Ea & _).
      unfold complete; rewrite Eg, Ea; split; discriminate.
    + pose proof (read_env_variables_by_kind fs (OS.dirname pom_file)) as Hk.
      destruct (OS.lookup fs (properties_path (OS.dirname pom_file)))
        as [[f|es|x]|]; eauto; rewrite Hk in Henv; discriminate.
  - intros (root & g & a & Hp & Hg & Ha & Hitems & Hdeps & Hprops).
    rewrite (extract_unfold _ _ _ _ _ Hp Hg Ha).
    assert (Hapis : exists apis,
               mapM (api_dependency root) (findall root "artifactItem") = Ok apis).
    { apply mapM_ok_iff; rewrite Forall_forall in *; intros x Hx.
      apply (proj2 (proj2 (api_dependency_shape root x))); auto. }
    assert (Hds : exists deps,
               mapM dependency_name (findall root "dependency") = Ok deps).
    { apply mapM_ok_iff; rewrite Forall_forall in *; intros x Hx.
      destruct (Hdeps x Hx) as [Hgx Hax].
      destruct (find x "groupId") as [g'|] eqn:Eg; [|congruence].
      destruct (find x "artifactId") as [a'|] eqn:Ea; [|congruence].
      eexists; apply (proj2 (dependency_name_shape x)); eauto. }
    destruct Hapis as [apis ->], Hds as [deps ->]; simpl.
    pose proof (read_env_variables_by_kind fs (OS.dirname pom_file)) as Hk.
    destruct Hprops as [Hnone | [f Hf]].
    + rewrite Hnone in Hk; rewrite Hk; simpl; eauto.
    + rewrite Hf in Hk; rewrite Hk.
      destruct (read_env_lines_return (OS.file_lines f) []) as [env' Henv'].
      unfold dict in *; rewrite Henv'; simpl; eauto.
Qed.

End ExtractMore.

Section ExtractInvariants.

Import ET Samples.

Lemma Element_induction (P : Element -> Prop) :
  (forall t x cs, Forall P cs -> P (mkElement t x cs)) ->
  forall e, P e.
Proof.
  intros H; fix IH 1; intros [t x cs]; apply H.
  induction cs as [|c cs IHcs]; constructor; [apply IH | exact IHcs].
Qed.

Lemma descendant_in_subtrees (e x : Element) :
  descendant e x -> In x (flat_map iter (children e)).
Proof.
  induction 1 as [e c Hc | e c x Hc Hd IH]; apply in_flat_map; exists c;
    split; auto.
  - destruct c; now left.
  - destruct c as [t y cs]; right; exact IH.
Qed.

Lemma in_subtrees_descendant (e x : Element) :
  In x (flat_map iter (children e)) -> descendant e x.
Proof.
  induction e as [t y cs IH] using Element_induction; simpl.
  intros Hin; apply in_flat_map in Hin as [c [Hc Hx]].
  rewrite Forall_forall in IH; specialize (IH c Hc).
  destruct c as [t' y' cs']; simpl in Hx; destruct Hx as [<-|Hx].
  - now apply descendant_child.
  - eapply descendant_deeper; [exact Hc | apply IH; exact Hx].
Qed.

(** The elements that findall returns are the descendants with the tag. *)
Lemma findall_descendants (e x : Element) (name : string) :
  In x (findall e name) <-> descendant e x /\ has_tag name x = true.
Proof.
  unfold findall; rewrite filter_In; split; intros [H1 H2]; split; auto.
  - now apply in_subtrees_descendant.
  - now apply descendant_in_subtrees.
Qed.

(** X8: in a descriptor that parses and in which every artifactItem has
    text in its version child, if it has one, and a property lookup that is
    one step of a path, one artifactItem or dependency element without a
    groupId or artifactId child makes extract_project_info return absent for
    the whole file, whatever the other elements are. *)
Theorem incomplete_element_skips_file
  (fs : OS.node) (pom_file : OS.path) (root x : Element) :
  ET_parse fs pom_file = Ok root ->
  Forall versioned (findall root "artifactItem") ->
  Forall (plain_placeholder root) (findall root "artifactItem") ->
  In x (findall root "artifactItem") \/ In x (findall root "dependency") ->
  ~ complete x ->
  extract_project_info fs pom_file = Ok None.
Proof.
  intros Hp Hver _ Hin Hnc.
  apply (missing_child_fails_file fs pom_file root Hp).
  - rewrite Forall_forall in Hver; intros item ve Hitem; apply (Hver item Hitem).
  - exists x; split; [exact Hin | now apply not_complete].
Qed.

(** X9: extract_project_info reads two places only, the descriptor and
    the application.properties beside it: two file systems that agree on
    both give the same result. *)
Theorem extraction_reads_two_paths (fs fs' : OS.node) (pom_file : OS.path) :
  OS.lookup fs pom_file = OS.lookup fs' pom_file ->
  OS.lookup fs (properties_path (OS.dirname pom_file))
  = OS.lookup fs' (properties_path (OS.dirname pom_file)) ->
  extract_project_info fs pom_file = extract_project_info fs' pom_file.
Proof.
  intros Hp Hprops.
  unfold extract_project_info, ET_parse, read_env_variables,
    OS.exists_, OS.read_lines.
  rewrite !named_properties_path, Hprops.
  replace (OS.named fs pom_file) with (OS.named fs' pom_file)
    by (destruct pom_file; [reflexivity | symmetry; exact Hp]).
  reflexivity.
Qed.

Lemma extraction_reads_two_paths_witness :
  extract_project_info two_projects ["root"; "A"; "pom.xml"]
  = extract_project_info (project_fs (Some widget) None) A_pom.
Proof.
  exact (extraction_reads_two_paths two_projects (project_fs (Some widget) None)
           A_pom eq_refl eq_refl).
Defined.

(** X10: a record keeps one string per artifactItem element and one per
    dependency element of the descriptor: nothing is dropped and equal
    strings are not merged. *)
Theorem record_keeps_every_element
  (fs : OS.node) (pom_file : OS.path) (root : Element) (r : ProjectRecord) :
  ET_parse fs pom_file = Ok root ->
  extract_project_info fs pom_file = Ok (Some r) ->
  List.length (api_dependencies r) = List.length (findall root "artifactItem")
  /\ List.length (dependencies r) = List.length (findall root "dependency")
  /\ pom_file_path r = pom_file.
Proof.
  intros Hp Hr.
  destruct (extract_record_inv _ _ _ Hr)
    as (root' & g & a & apis & deps & env & Hp' & _ & _ & Hapis & Hdeps & _ & ->).
  rewrite Hp in Hp'; injection Hp' as <-; simpl.
  apply mapM_ok_pointwise, Forall2_length in Hapis, Hdeps.
  rewrite <- (Permutation_length (sorted_perm apis)).
  repeat split; congruence.
Qed.

Lemma record_keeps_every_element_witness :
  exists r,
    extract_project_info (project_fs (Some placeholders) None) A_pom = Ok (Some r)
    /\ List.length (api_dependencies r) = 4.
Proof.
  eexists; split; [reflexivity|].
  exact (proj1 (record_keeps_every_element (project_fs (Some placeholders) None)
                  A_pom placeholders _ eq_refl eq_refl)).
Defined.

(** X11: the two lists of a record cover the whole document: every
    artifactItem element and every dependency element at any depth below the
    root, also one nested in another of the same name, has its string in the
    list. *)
Theorem nested_elements_are_listed
  (fs : OS.node) (pom_file : OS.path) (root x : Element) (r : ProjectRecord) :
  ET_parse fs pom_file = Ok root ->
  extract_project_info fs pom_file = Ok (Some r) ->
  descendant root x ->
  (has_tag "artifactItem" x = true ->
   exists s, api_dependency root x = Ok s /\ In s (api_dependencies r))
  /\ (has_tag "dependency" x = true ->
      exists s, dependency_name x = Ok s /\ In s (dependencies r)).
Proof.
  intros Hp Hr Hd.
  destruct (extract_record_inv _ _ _ Hr)
    as (root' & g & a & apis & deps & env & Hp' & _ & _ & Hapis & Hdeps & _ & ->).
  rewrite Hp in Hp'; injection Hp' as <-; simpl.
  split; intros Ht.
  - destruct (mapM_ok_item _ _ _ x Hapis) as (s & Hs & Hin);
      [apply findall_descendants; auto|].
    exists s; split; [exact Hs|].
    eapply Permutation_in; [apply sorted_perm | exact Hin].
  - destruct (mapM_ok_item _ _ _ x Hdeps) as (s & Hs & Hin);
      [apply findall_descendants; auto|].
    eauto.
Qed.

Lemma nested_elements_are_listed_witness :
  exists r s,
    extract_project_info (project_fs (Some widget) None) A_pom = Ok (Some r)
    /\ dependency_name (el "dependency" None
                          [ leaf "groupId" "com.acme"; leaf "artifactId" "core" ])
       = Ok s
    /\ In s (dependencies r).
Proof.
  assert (Hd : descendant widget
                 (el "dependency" None
                    [ leaf "groupId" "com.acme"; leaf "artifactId" "core" ])).
  { apply descendant_deeper
      with (c := el "dependencies" None
                   [ el "dependency" None
                       [ leaf "groupId" "com.acme"; leaf "artifactId" "core" ] ]).
    - simpl; tauto.
    - apply descendant_child; simpl; tauto. }
  eexists.
  destruct (proj2 (nested_elements_are_listed (project_fs (Some widget) None) A_pom
                     widget _ _ eq_refl eq_refl Hd) eq_refl) as (s & Hs & Hin).
  exists s; split; [reflexivity|]; split; [exact Hs | exact Hin].
Defined.

End ExtractInvariants.

(* ------------------------------------------------------------------------- *)
(** * Further properties of the environment reader                            *)
(* ------------------------------------------------------------------------- *)

Section EnvironmentMore.

Import Samples.

Lemma strip_idem (s : string) : strip (strip s) = strip s.
Proof. unfold strip at 2; now rewrite strip_rstrip, strip_lstrip. Qed.

Lemma strip_cons (s : string) (c : ascii) (r : string) :
  strip s = String c r -> isspace c = false.
Proof.
  unfold strip; destruct (lstrip s) as [|c' r'] eqn:El; [discriminate|].
  pose proof (lstrip_head _ _ _ El) as Hc.
  rewrite rstrip_cons_nonspace by exact Hc.
  intros H; injection H as <- _; exact Hc.
Qed.

(** A line either leaves the mapping as it is or assigns a clean entry. *)
Lemma read_env_line_effect (env env' : dict) (line : string) :
  read_env_line env line = Ok env' ->
  env' = env \/ exists k v, clean_entry (k, v) /\ env' = dict_set env k v.
Proof.
  unfold read_env_line.
  destruct (negb (strip line =? "")) eqn:Hne; simpl;
    [|intros H; injection H as <-; now left].
  destruct (startswith (strip line) "#") eqn:Hhash; simpl;
    [intros H; injection H as <-; now left|].
  unfold split1; destruct (cut "=" (strip line)) as [[k0 v0]|] eqn:Hcut; simpl;
    [|intros H; injection H as <-; now left].
  intros H; injection H as <-; right.
  exists (strip k0), (strip v0); split; [|reflexivity].
  apply cut_some in Hcut as [Hs Hk0].
  unfold clean_entry; simpl; repeat split.
  - apply strip_idem.
  - apply strip_idem.
  - now apply no_char_strip.
  - destruct k0 as [|c k0']; [reflexivity|].
    cbn [append] in Hs.
    assert (Hc : isspace c = false) by (eapply strip_cons; exact Hs).
    rewrite Hs, startswith_char in Hhash.
    unfold strip; cbn [lstrip]; rewrite Hc, rstrip_cons_nonspace by exact Hc.
    rewrite startswith_char; exact Hhash.
Qed.

Lemma dict_set_keys (d : dict) (k v x : string) :
  In x (map fst (dict_set d k v)) -> x = k \/ In x (map fst d).
Proof.
  induction d as [|[k' v'] d IH]; simpl.
  - intros [<-|[]]; now left.
  - destruct (String.eqb k' k) eqn:E; simpl.
    + apply String.eqb_eq in E; subst; tauto.
    + intros [<-|H]; [tauto | destruct (IH H); tauto].
Qed.

Lemma dict_set_nodup (d : dict) (k v : string) :
  NoDup (map fst d) -> NoDup (map fst (dict_set d k v)).
Proof.
  induction d as [|[k' v'] d IH]; simpl; intros H.
  - repeat constructor; simpl; tauto.
  - inversion H as [|x l Hnotin Hnd]; subst.
    destruct (String.eqb k' k) eqn:E; simpl.
    + apply String.eqb_eq in E; subst; now constructor.
    + apply String.eqb_neq in E; constructor; [|auto].
      intros Hin; apply dict_set_keys in Hin as [->|Hin]; tauto.
Qed.

Lemma dict_set_all (P : string * string -> Prop) (d : dict) (k v : string) :
  P (k, v) -> Forall P d -> Forall P (dict_set d k v).
Proof.
  intros Hkv; induction 1 as [|[k' v'] d Hx Hd IH]; simpl.
  - now repeat constructor.
  - destruct (String.eqb k' k); constructor; auto.
Qed.

Lemma dict_get_set_other (d : dict) (k v k' : string) :
  k' <> k -> dict_get (dict_set d k v) k' = dict_get d k'.
Proof.
  intros Hne; induction d as [|[k0 v0] d IH]; simpl.
  - apply String.eqb_neq in Hne; now rewrite String.eqb_sym, Hne.
  - destruct (String.eqb k0 k) eqn:E; simpl.
    + apply String.eqb_eq in E; subst k0.
      destruct (String.eqb k k') eqn:E'; [|reflexivity].
      apply String.eqb_eq in E'; congruence.
    + now rewrite IH.
Qed.

Lemma for_each_invariant {S X : Type} (P : S -> Prop) (body : S -> X -> result S)
  (xs : list X) (s s' : S) :
  (forall s x s', P s -> body s x = Ok s' -> P s') ->
  P s -> for_each xs s body = Ok s' -> P s'.
Proof.
  intros Hstep; revert s; induction xs as [|x xs IH]; intros s Hs; simpl.
  - intros H; injection H as <-; exact Hs.
  - destruct (body s x) as [s1|e] eqn:Hb; simpl; [|discriminate].
    apply IH; eauto.
Qed.

(** X13: in the mapping that read_env_variables returns no key occurs
    twice, and every entry is clean: key and value carry no whitespace at
    either end, the key holds no = and does not start with #. *)
Theorem env_entries_clean (fs : OS.node) (project_path : OS.path) (env : dict) :
  read_env_variables fs project_path = Ok env ->
  NoDup (map fst env) /\ Forall clean_entry env.
Proof.
  pose proof (read_env_variables_by_kind fs project_path) as Hkind.
  destruct (OS.lookup fs (properties_path project_path)) as [[f|es|x]|];
    rewrite Hkind; try discriminate.
  - apply (for_each_invariant
             (fun d : dict => NoDup (map fst d) /\ Forall clean_entry d)).
    + intros d line d' [Hnd Hall] Hline.
      apply read_env_line_effect in Hline as [->|(k & v & Hclean & ->)]; auto.
      split; [now apply dict_set_nodup | now apply dict_set_all].
    + split; constructor.
  - intros H; injection H as <-; split; constructor.
Qed.

Lemma env_entries_clean_witness :
  NoDup (map fst [("a", "2"); ("KEY", "")])
  /\ Forall clean_entry [("a", "2"); ("KEY", "")].
Proof.
  exact (env_entries_clean
           (project_fs (Some widget)
              (Some [" a = 1 " ++ nl; "KEY=" ++ nl; "a=2" ++ nl; "# a=3" ++ nl]))
           ["root"; "A"] _ eq_refl).
Defined.

(** X14: the value that the mapping gives for a key is the one of the last
    line that assigns the key: lines after it that assign other keys, or
    nothing, do not change it. *)
Theorem last_assignment_wins
  (fs : OS.node) (project_path : OS.path) (f : OS.file)
  (before after : list string) (line k v : string) :
  OS.lookup fs (properties_path project_path) = Some (OS.File f) ->
  OS.file_lines f = (before ++ line :: after)%list ->
  line_entry line (Some (k, v)) ->
  (forall l v', In l after -> ~ line_entry l (Some (k, v'))) ->
  exists env,
    read_env_variables fs project_path = Ok env /\ dict_get env k = Some v.
Proof.
  intros Hf Hlines Hline Hafter.
  rewrite (read_env_variables_file _ _ _ Hf), Hlines, for_each_app.
  destruct (read_env_lines_return before []) as [env0 Henv0].
  unfold dict in *; rewrite Henv0; simpl.
  rewrite (read_env_line_entry env0 line _ Hline); simpl.
  assert (Hrest : forall d : list (string * string),
             dict_get d k = Some v ->
             exists env, for_each after d read_env_line = Ok env
                         /\ dict_get env k = Some v).
  { clear Hlines; induction after as [|l after IH]; intros d Hd; simpl; [eauto|].
    destruct (line_entry_total l) as [e He].
    rewrite (read_env_line_entry d l e He); simpl.
    apply IH; [intros l' v' Hin; apply Hafter; now right|].
    destruct e as [[k' v']|]; simpl; [|exact Hd].
    rewrite dict_get_set_other; [exact Hd|].
    intros <-; apply (Hafter l v'); [now left | exact He]. }
  apply Hrest, dict_get_set.
Qed.

Lemma last_assignment_wins_witness :
  exists env,
    read_env_variables
      (project_fs (Some widget) (Some ["a=1" ++ nl; "a=2" ++ nl; "b=3" ++ nl]))
      ["root"; "A"]
    = Ok env
    /\ dict_get env "a" = Some "2".
Proof.
  refine (last_assignment_wins
            (project_fs (Some widget) (Some ["a=1" ++ nl; "a=2" ++ nl; "b=3" ++ nl]))
            ["root"; "A"]
            (OS.mkFile (Raise ParseError) ["a=1" ++ nl; "a=2" ++ nl; "b=3" ++ nl])
            ["a=1" ++ nl] ["b=3" ++ nl] ("a=2" ++ nl) "a" "2"
            eq_refl eq_refl _ _).
  - refine (line_assignment "" "a" ("=2" ++ nl) "a" ("2" ++ nl) _ eq_refl _ eq_refl _).
    + constructor.
    + discriminate.
    + intros H; simpl in H; repeat (destruct H as [H|H]; [discriminate|]); exact H.
  - intros l v' [<-|[]] H.
    apply (read_env_line_entry []) in H; vm_compute in H; discriminate H.
Defined.

End EnvironmentMore.

(* ------------------------------------------------------------------------- *)
(** * The main block                                                          *)
(* ------------------------------------------------------------------------- *)

Section MainBlock.

Lemma lower_char_is_y (c : ascii) :
  Ascii.eqb (lower_char c) "y" = Ascii.eqb c "y" || Ascii.eqb c "Y".
Proof. destruct c as [[] [] [] [] [] [] [] []]; reflexivity. Qed.

Lemma str_lower_is_y (s : string) :
  String.eqb (str_lower s) "y" = true <-> s = "y" \/ s = "Y".
Proof.
  destruct s as [|c [|c' s']]; simpl.
  - split; [discriminate | intros [H|H]; discriminate].
  - rewrite lower_char_is_y.
    destruct (Ascii.eqb c "y") eqn:Ey; [apply Ascii.eqb_eq in Ey; subst; tauto|].
    destruct (Ascii.eqb c "Y") eqn:EY; [apply Ascii.eqb_eq in EY; subst; tauto|].
    apply Ascii.eqb_neq in Ey, EY; simpl.
    split; [discriminate | intros [H|H]; congruence].
  - destruct (Ascii.eqb (lower_char c) "y");
      (split; [discriminate | intros [H|H]; discriminate]).
Qed.

(** X15: the main block analyses subfolders exactly when the answer to the
    second question is y or Y (yes, or y with a space, do not count); an
    empty answer to the first or third question gives the default, so the
    directory and the output file name that it passes on are never empty,
    and every other answer is passed on as it is. *)
Theorem main_arguments_from_answers (d s o : string) :
  let '(directory, output_file, include_subfolders) := main_arguments d s o in
  (include_subfolders = true <-> s = "y" \/ s = "Y")
  /\ directory <> "" /\ output_file <> ""
  /\ (d <> "" -> directory = d) /\ (o <> "" -> output_file = o)
  /\ (d = "" -> directory = default_directory)
  /\ (o = "" -> output_file = "dependency_report.html").
Proof.
  unfold main_arguments, or_default.
  split; [apply str_lower_is_y|].
  destruct (String.eqb_spec d ""), (String.eqb_spec o "");
    repeat split; try congruence; try discriminate; auto.
Qed.

Lemma main_arguments_from_answers_witness :
  "/srv/projects" <> ""
  /\ fst (fst (main_arguments "/srv/projects" "Y" "")) = "/srv/projects"
  /\ snd (main_arguments "/srv/projects" "Y" "") = true.
Proof.
  pose proof (main_arguments_from_answers "/srv/projects" "Y" "") as H.
  destruct (main_arguments "/srv/projects" "Y" "") as [[directory output_file] include].
  destruct H as (Hy & _ & _ & Hd & _).
  split; [discriminate|]; split; [apply Hd; discriminate | apply Hy; now right].
Defined.

End MainBlock.


(* ------------------------------------------------------------------------- *)
(** * Where properties are looked up, and how deep the traversal goes         *)
(* ------------------------------------------------------------------------- *)

Section Reach.

Import ET OS Samples.

Lemma find_no_child (e : Element) (name : string) :
  (forall c, In c (children e) -> has_tag name c = false) -> find e name = None.
Proof.
  unfold find; generalize (children e); intros cs.
  induction cs as [|c cs IH]; simpl; intros H; [reflexivity|].
  rewrite (H c (or_introl eq_refl)); apply IH; intros c' Hc'; apply H; now right.
Qed.

(** X16: properties are looked up among the children of the root only.
    When no child of the root is a properties element, no name resolves,
    whatever properties elements lie deeper in the document (in a profile,
    say), and an artifactItem whose version is a placeholder keeps it. *)
Theorem properties_only_at_top_level
  (root item g a ve : Element) (x : string) :
  (forall c, In c (children root) -> has_tag "properties" c = false) ->
  ET.find item "groupId" = Some g -> ET.find item "artifactId" = Some a ->
  ET.find item "version" = Some ve -> text ve = Some ("${" ++ x ++ "}") ->
  (forall name, resolve_property root name = None)
  /\ api_dependency root item
     = Ok (fmt (text g) ++ ":" ++ fmt (text a) ++ " (${" ++ x ++ "})").
Proof.
  intros Hno Hg Ha Hv Ht.
  assert (Hres : forall name, resolve_property root name = None)
    by (intros name; unfold resolve_property; now rewrite find_no_child).
  split; [exact Hres|].
  rewrite (api_dependency_placeholder root item g a ve x Hg Ha Hv Ht), Hres.
  simpl; now rewrite !str_app_assoc.
Qed.

Lemma properties_only_at_top_level_witness :
  api_dependency
    (el "project" None
       [ el "profiles" None
           [ el "profile" None [ el "properties" None [ leaf "x" "1.2.3" ] ] ] ])
    (item "org.a" "one" [ leaf "version" "${x}" ])
  = Ok "org.a:one (${x})".
Proof.
  refine (proj2 (properties_only_at_top_level _
                   (item "org.a" "one" [ leaf "version" "${x}" ])
                   (leaf "groupId" "org.a") (leaf "artifactId" "one")
                   (leaf "version" "${x}") "x" _ eq_refl eq_refl eq_refl eq_refl)).
  intros c [<-|[]]; reflexivity.
Defined.

(** X17: without subfolders, every path returned is pom.xml inside a
    subdirectory that the directory lists: never the pom.xml of the directory
    itself, never one that lies deeper. *)
Theorem direct_traversal_depth
  (fs : node) (directory p : path) (l : list path) :
  find_pom_files fs directory false = Ok l ->
  In p l ->
  exists es name sub,
    lookup fs directory = Some (Dir es)
    /\ In (name, Dir sub) es
    /\ p = (directory ++ [name; "pom.xml"])%list
    /\ List.length p = List.length directory + 2.
Proof.
  intros Hl Hin.
  destruct (named fs directory) as [[f|es|xml]|] eqn:Hd;
    try (unfold find_pom_files, scandir in Hl; rewrite Hd in Hl; discriminate).
  destruct (find_pom_files_direct fs directory p es Hd) as (l' & Hl' & Hiff).
  rewrite Hl in Hl'; injection Hl' as <-.
  apply Hiff in Hin; destruct Hin as (name & sub & Hes & Hp & _).
  apply named_some in Hd as [_ Hd].
  exists es, name, sub; repeat split; auto.
  rewrite Hp, List.length_app; simpl; lia.
Qed.

Lemma direct_traversal_depth_witness :
  exists es name sub,
    lookup two_projects ["root"] = Some (Dir es)
    /\ In (name, Dir sub) es
    /\ ["root"; "A"; "pom.xml"] = (["root"] ++ [name; "pom.xml"])%list
    /\ List.length ["root"; "A"; "pom.xml"] = List.length ["root"] + 2.
Proof.
  refine (direct_traversal_depth two_projects ["root"] ["root"; "A"; "pom.xml"]
            [["root"; "A"; "pom.xml"]] eq_refl _).
  now left.
Defined.

End Reach.

(* ------------------------------------------------------------------------- *)
(** * The characterisations at sample inputs                                  *)
(* ------------------------------------------------------------------------- *)

Section Instances.

Import ET OS Samples.

(** Settles [plain_placeholder] for a sample item: its version child and
    the text of that child are known, and the name cut out is one token. *)
Ltac plain_item :=
  let ve := fresh "ve" in
  let t := fresh "t" in
  let Hve := fresh "Hve" in
  let Ht := fresh "Ht" in
  intros ve t Hve Ht _; vm_compute in Hve;
  first [ discriminate Hve
        | injection Hve as <-; vm_compute in Ht; injection Ht as <-;
          right; reflexivity ].

Lemma api_dependency_by_shape_witness :
  plain_placeholder placeholders (item "org.a" "one" [ leaf "version" "${x}" ])
  /\ complete (item "org.a" "one" [ leaf "version" "${x}" ])
  /\ versioned (item "org.a" "one" [ leaf "version" "${x}" ])
  /\ exists s,
       api_dependency placeholders (item "org.a" "one" [ leaf "version" "${x}" ])
       = Ok s.
Proof.
  assert (Hp : plain_placeholder placeholders
                 (item "org.a" "one" [ leaf "version" "${x}" ]))
    by plain_item.
  assert (Hc : complete (item "org.a" "one" [ leaf "version" "${x}" ]))
    by (split; discriminate).
  assert (Hv : versioned (item "org.a" "one" [ leaf "version" "${x}" ])).
  { intros ve H; vm_compute in H; injection H as <-; discriminate. }
  split; [exact Hp|]; split; [exact Hc|]; split; [exact Hv|].
  exact (proj2 (proj2 (proj2 (api_dependency_by_shape placeholders
                                (item "org.a" "one" [ leaf "version" "${x}" ])
                                Hp)))
           (conj Hc Hv)).
Defined.

Lemma dependency_name_by_shape_witness :
  dependency_name (el "dependency" None [ empty "groupId"; leaf "artifactId" "core" ])
  = Ok "None:core".
Proof.
  apply (proj2 (dependency_name_by_shape
                  (el "dependency" None [ empty "groupId"; leaf "artifactId" "core" ]))).
  exists (empty "groupId"), (leaf "artifactId" "core"); repeat split.
Defined.

Lemma extraction_gives_record_iff_witness :
  exists root g a,
    ET_parse (project_fs (Some placeholders) None) A_pom = Ok root
    /\ find root "groupId" = Some g /\ find root "artifactId" = Some a
    /\ Forall (fun item => complete item /\ versioned item)
         (findall root "artifactItem")
    /\ Forall complete (findall root "dependency")
    /\ (lookup (project_fs (Some placeholders) None)
          (properties_path (dirname A_pom)) = None
        \/ exists f,
             lookup (project_fs (Some placeholders) None)
               (properties_path (dirname A_pom))
             = Some (File f)).
Proof.
  refine (proj1 (extraction_gives_record_iff
                   (project_fs (Some placeholders) None) A_pom _) _).
  - intros root Hp; vm_compute in Hp; injection Hp as <-.
    repeat (apply Forall_cons; [plain_item|]); apply Forall_nil.
  - eexists; reflexivity.
Defined.

Lemma incomplete_element_skips_file_witness :
  extract_project_info (project_fs (Some placeholders_then_bare_dependency) None)
    A_pom
  = Ok None.
Proof.
  refine (incomplete_element_skips_file
            (project_fs (Some placeholders_then_bare_dependency) None)
            A_pom placeholders_then_bare_dependency
            (el "dependency" None [ leaf "artifactId" "core" ])
            eq_refl _ _ _ _).
  - repeat (apply Forall_cons;
            [intros ve H; vm_compute in H; injection H as <-; discriminate|]).
    apply Forall_nil.
  - repeat (apply Forall_cons; [plain_item|]); apply Forall_nil.
  - right; left; reflexivity.
  - intros [Hg _]; apply Hg; reflexivity.
Defined.

End Instances.
